(** * producer-consumer.c: a shallow embedding and its properties

    The program hands one text message from a producer process to a
    consumer process, over a Unix domain socket or through a System V
    shared memory segment guarded by three POSIX named semaphores.

    The embedding follows the C source statement by statement.  Library
    and system calls are modelled by small functions on an explicit
    operating-system state; a run of one process yields the list of
    calls it made, the state it leaves behind and the way it ended.

    Modelling conventions.
    - One process runs at a time, from its first statement up to its
      return, its [exit], the call it stays suspended in, or the first
      operation whose behaviour C or POSIX leaves undefined.
    - A call fails for the causes the state shows (a name that does not
      exist, a count at its maximum).  Creation and connection calls can
      also fail for causes the state does not show (permissions,
      limits): an [Env] says which.  The processes run as one user:
      calls that detach, close, remove or unlink succeed.
    - A [char*] is a string, read up to its first NUL; a [char] array is
      a list of characters of the array's size.  A store outside an
      array, a read that finds no NUL inside it, and a semaphore call on
      [SEM_FAILED] are undefined behaviour.
    - A call that returns -1 and sets [errno] returns [inl] of the error.
    - [getopt] is taken through the values it returns and the line it
      writes to standard error when it returns ['?']; [atoi] is
      [(int) strtol], as the C library computes it. *)

From Stdlib Require Import ZArith Lia List String Ascii Bool.
From stdpp Require Import base gmap strings list.

Local Open Scope string_scope.
Local Open Scope list_scope.
Local Open Scope Z_scope.

(** ** C strings and character arrays *)

Definition MAX_MESSAGE_LENGTH : nat := 1024.
Definition SOCKET_PATH : string := "/tmp/producer_consumer_socket".

Definition NUL : ascii := Ascii.zero.

Definition is_nul (c : ascii) : bool := Ascii.eqb c NUL.

(** The characters of [s] before its first NUL: what a [char*] to [s]
    denotes as a C string. *)
Fixpoint c_str (s : string) : string :=
  match s with
  | EmptyString => EmptyString
  | String c s' => if is_nul c then EmptyString else String c (c_str s')
  end.

Definition strlen (s : string) : nat := String.length (c_str s).

(** The bytes [strcpy] moves for the C string [s]: its characters and the
    terminating NUL. *)
Definition cstr_bytes (s : string) : list ascii :=
  list_ascii_of_string (c_str s) ++ [NUL].

(** [s] followed by a newline. *)
Definition nl (s : string) : string := (s ++ String "010" EmptyString)%string.

(** [write_at i src dst]: [dst] with [src] stored from index [i] on, or
    [None] when a byte would fall outside [dst]. *)
Definition write_at (i : nat) (src dst : list ascii) : option (list ascii) :=
  if (i + length src <=? length dst)%nat
  then Some (firstn i dst ++ src ++ skipn (i + length src) dst)
  else None.

(** [strcpy(dst, src)]: copies the characters of [src] and the
    terminating NUL; no bound is given, so the copy leaves [dst] when
    [strlen src + 1] exceeds its size. *)
Definition strcpy (dst : list ascii) (src : string) : option (list ascii) :=
  write_at 0 (cstr_bytes src) dst.

(** The C string stored in a character array, read from index 0 up to
    the first NUL; [None] when the array holds no NUL, so that reading
    would run past its end. *)
Fixpoint read_cstr (buf : list ascii) : option string :=
  match buf with
  | [] => None
  | c :: buf' =>
      if is_nul c then Some EmptyString
      else option_map (String c) (read_cstr buf')
  end.

(** ** Data of the program *)

Record Queue := {
  message : list ascii;      (* char message[MAX_MESSAGE_LENGTH] *)
  is_empty : Z
}.

Record Arguments := {
  is_producer : Z;
  is_consumer : Z;
  arg_message : option string;   (* char* message; None is NULL *)
  queue_depth : Z;
  use_socket : Z;
  use_shared_memory : Z;
  enable_echo : Z
}.

(** [Arguments args = {0}] *)
Definition args_zero : Arguments :=
  {| is_producer := 0; is_consumer := 0; arg_message := None; queue_depth := 0;
     use_socket := 0; use_shared_memory := 0; enable_echo := 0 |}.

(** A C [int] used as a condition. *)
Definition truthy (z : Z) : bool := negb (z =? 0).

(** ** The operating system *)

Definition SEM_VALUE_MAX : Z := 2147483647.

Definition MUTEX_SEM : string := "/mutex_sem".
Definition EMPTY_SEM : string := "/empty_sem".
Definition FULL_SEM : string := "/full_sem".

Record OS := {
  shm : option Queue;        (* the segment under key ftok("/tmp",'Q') *)
  sems : gmap string Z;      (* named semaphores: name to count *)
  sock_file : bool           (* SOCKET_PATH exists in the file system *)
}.

Definition set_shm (o : option Queue) (s : OS) : OS :=
  {| shm := o; sems := sems s; sock_file := sock_file s |}.
Definition set_sems (m : gmap string Z) (s : OS) : OS :=
  {| shm := shm s; sems := m; sock_file := sock_file s |}.
Definition set_sock_file (b : bool) (s : OS) : OS :=
  {| shm := shm s; sems := sems s; sock_file := b |}.

(** A state with none of the named resources. *)
Definition os_fresh : OS := {| shm := None; sems := ∅; sock_file := false |}.

(** A segment as [shmget] creates it: filled with zero bytes. *)
Definition queue_zero : Queue :=
  {| message := repeat NUL MAX_MESSAGE_LENGTH; is_empty := 0 |}.

Inductive call :=
| Cftok | Cshmget | Cshmat | Csem_open (name : string)
| Csocket | Cbind | Clisten | Caccept | Cconnect | Csend | Crecv.

Record Env := {
  denied : call -> bool;            (* the call fails for a cause outside the state *)
  peer : option (list ascii);       (* what a connecting producer sends; None: nobody connects *)
  junk : nat -> ascii               (* contents of an uninitialised local array *)
}.

Definition env_ok : Env :=
  {| denied := fun _ => false; peer := None; junk := fun _ => "x"%char |}.

Inductive errno := ENOENT | EINVAL | ECONNREFUSED | EOTHER.

(** What a process does, in program order. *)
Inductive event :=
| EvShmget (created : bool)            (* shmget gave the segment; it made it when [created] *)
| EvShmat
| EvShmdt
| EvShmRm                              (* shmctl(IPC_RMID) *)
| EvSemOpen (name : string) (created : bool) (value : Z)
                                       (* sem_open gave [name], whose count is [value] *)
| EvSemOpenFailed (name : string) (e : errno)
| EvSemWait (name : string)            (* sem_wait took one unit of [name] *)
| EvSemPost (name : string)            (* sem_post gave one unit to [name] *)
| EvSemPostFailed (name : string)      (* sem_post returned -1 *)
| EvSemClose (name : string)
| EvSemUnlink (name : string)
| EvStoreMessage (bytes : list ascii)  (* bytes stored in the mailbox buffer *)
| EvStoreFlag (v : Z)                  (* the mailbox's is_empty set to [v] *)
| EvLoadMessage (bytes : list ascii)   (* bytes copied out of the mailbox buffer *)
| EvSend (bytes : list ascii)
| EvRecv (n : nat)                     (* recv returned [n] *)
| EvStdout (s : string)
| EvStderr (s : string)
| EvPerror (s : string) (e : errno).   (* perror(s) with errno [e] *)

(** How a run ends. *)
Inductive result (A : Type) :=
| Ret (a : A)          (* the function returned [a] *)
| Exit (status : Z)    (* [exit(status)] *)
| Block                (* suspended for ever in a wait *)
| Fault.               (* behaviour undefined from here on *)
Arguments Ret {A} a.
Arguments Exit {A} status.
Arguments Block {A}.
Arguments Fault {A}.

Definition M (A : Type) : Type := OS -> list event * OS * result A.

Definition ret {A} (a : A) : M A := fun s => ([], s, Ret a).

Definition andthen {A B} (m : M A) (f : A -> M B) : M B :=
  fun s =>
    match m s with
    | (t1, s1, Ret a) =>
        match f a s1 with (t2, s2, r) => (t1 ++ t2, s2, r) end
    | (t1, s1, Exit c) => (t1, s1, Exit c)
    | (t1, s1, Block) => (t1, s1, Block)
    | (t1, s1, Fault) => (t1, s1, Fault)
    end.

Notation "x <- m ;; k" := (andthen m (fun x => k))
  (at level 100, m at next level, right associativity).
Notation "m ;; k" := (andthen m (fun _ => k))
  (at level 100, right associativity).

Definition emit (e : event) : M unit := fun s => ([e], s, Ret tt).
Definition exit {A} (status : Z) : M A := fun s => ([], s, Exit status).
Definition block {A} : M A := fun s => ([], s, Block).
Definition fault {A} : M A := fun s => ([], s, Fault).

Definition trace_of {A} (x : list event * OS * result A) : list event := x.1.1.
Definition state_of {A} (x : list event * OS * result A) : OS := x.1.2.
Definition result_of {A} (x : list event * OS * result A) : result A := x.2.

(** ** Library and system calls *)

Section Calls.
Variable env : Env.

(** An automatic array of [n] characters: its contents are whatever
    the stack held. *)
Definition uninit (n : nat) : list ascii := map (junk env) (seq 0 n).

(** [if (x == -1) { perror(what); exit(1); }] after a call. *)
Definition checked {A} (what : string) (m : M (errno + A)) : M A :=
  r <- m ;;
  match r with
  | inl e => emit (EvPerror what e) ;; exit 1
  | inr a => ret a
  end.

(** *** System V shared memory *)

Definition ftok : M (errno + unit) := fun s =>
  if denied env Cftok then ([], s, Ret (inl EOTHER)) else ([], s, Ret (inr tt)).

(** [shmget(key, sizeof(Queue), flags)]; [creat] is [IPC_CREAT].  An
    existing segment is returned as it is; a new one is zero-filled. *)
Definition shmget (key : unit) (creat : bool) : M (errno + unit) := fun s =>
  if denied env Cshmget then ([], s, Ret (inl EOTHER))
  else match shm s with
       | Some _ => ([EvShmget false], s, Ret (inr tt))
       | None =>
           if creat
           then ([EvShmget true], set_shm (Some queue_zero) s, Ret (inr tt))
           else ([], s, Ret (inl ENOENT))
       end.

Definition shmat (shmid : unit) : M (errno + unit) := fun s =>
  if denied env Cshmat then ([], s, Ret (inl EOTHER)) else ([EvShmat], s, Ret (inr tt)).

Definition shmdt (shared_queue : unit) : M unit := emit EvShmdt.

(** [shmctl(shmid, IPC_RMID, NULL)] once the segment is detached. *)
Definition shmctl_rmid (shmid : unit) : M unit := fun s =>
  ([EvShmRm], set_shm None s, Ret tt).

(** [strcpy(shared_queue->message, src)] *)
Definition queue_strcpy (shared_queue : unit) (src : option string) : M unit := fun s =>
  match shm s, src with
  | Some q, Some m =>
      match strcpy (message q) m with
      | Some buf =>
          ([EvStoreMessage (cstr_bytes m)],
           set_shm (Some {| message := buf; is_empty := is_empty q |}) s, Ret tt)
      | None => ([], s, Fault)
      end
  | _, _ => ([], s, Fault)
  end.

(** [shared_queue->is_empty = v] *)
Definition queue_set_is_empty (shared_queue : unit) (v : Z) : M unit := fun s =>
  match shm s with
  | Some q =>
      ([EvStoreFlag v], set_shm (Some {| message := message q; is_empty := v |}) s, Ret tt)
  | None => ([], s, Fault)
  end.

(** [strcpy(buffer, shared_queue->message)]: the source is the array in
    the segment, read up to its first NUL. *)
Definition strcpy_from_queue (buffer : list ascii) (shared_queue : unit)
  : M (list ascii) := fun s =>
  match shm s with
  | Some q =>
      match read_cstr (message q) with
      | Some m =>
          match strcpy buffer m with
          | Some buffer' => ([EvLoadMessage (cstr_bytes m)], s, Ret buffer')
          | None => ([], s, Fault)
          end
      | None => ([], s, Fault)
      end
  | None => ([], s, Fault)
  end.

(** *** POSIX named semaphores *)

(** A [sem_t*]: [None] is [SEM_FAILED]. *)
Definition sem_t := option string.

(** [sem_open(name, O_CREAT, 0666, value)] when [creat], else
    [sem_open(name, 0)].  Without [O_EXCL] an existing semaphore is
    opened as it is and [value] is not used.  [value] is passed as an
    [unsigned int]. *)
Definition sem_open (name : string) (creat : bool) (value : Z) : M sem_t := fun s =>
  if denied env (Csem_open name)
  then ([EvSemOpenFailed name EOTHER], s, Ret None)
  else match sems s !! name with
       | Some v => ([EvSemOpen name false v], s, Ret (Some name))
       | None =>
           if creat
           then let v := value mod 2 ^ 32 in
                if v <=? SEM_VALUE_MAX
                then ([EvSemOpen name true v], set_sems (<[name := v]> (sems s)) s,
                      Ret (Some name))
                else ([EvSemOpenFailed name EINVAL], s, Ret None)
           else ([EvSemOpenFailed name ENOENT], s, Ret None)
       end.

(** [sem_wait(sem)]; the value returned is the call's, 0 here.  On a
    pointer that is no semaphore ([SEM_FAILED]) the behaviour is
    undefined. *)
Definition sem_wait (sem : sem_t) : M Z := fun s =>
  match sem with
  | None => ([], s, Fault)
  | Some name =>
      match sems s !! name with
      | Some v =>
          if 0 <? v
          then ([EvSemWait name], set_sems (<[name := v - 1]> (sems s)) s, Ret 0)
          else ([], s, Block)
      | None => ([], s, Fault)
      end
  end.

(** [sem_post(sem)]: fails with -1 when the count is at its maximum. *)
Definition sem_post (sem : sem_t) : M Z := fun s =>
  match sem with
  | None => ([], s, Fault)
  | Some name =>
      match sems s !! name with
      | Some v =>
          if v <? SEM_VALUE_MAX
          then ([EvSemPost name], set_sems (<[name := v + 1]> (sems s)) s, Ret 0)
          else ([EvSemPostFailed name], s, Ret (-1))
      | None => ([], s, Fault)
      end
  end.

Definition sem_close (sem : sem_t) : M Z :=
  match sem with
  | None => fault
  | Some name => emit (EvSemClose name) ;; ret 0
  end.

Definition sem_unlink (name : string) : M Z := fun s =>
  ([EvSemUnlink name], set_sems (delete name (sems s)) s,
   Ret (match sems s !! name with Some _ => 0 | None => -1 end)).

(** *** Standard output *)

(** [printf("%s\n", p)] for a [char*] argument. *)
Definition printf_line (p : option string) : M unit :=
  match p with
  | Some m => emit (EvStdout (nl (c_str m)))
  | None => fault
  end.

(** [printf("%s\n", buffer)] for a local array. *)
Definition printf_buffer (buffer : list ascii) : M unit :=
  printf_line (read_cstr buffer).

(** *** Unix domain sockets *)

Definition socket : M (errno + unit) := fun s =>
  if denied env Csocket then ([], s, Ret (inl EOTHER)) else ([], s, Ret (inr tt)).

(** [connect] to [SOCKET_PATH]. *)
Definition connect (sock : unit) : M (errno + unit) := fun s =>
  if denied env Cconnect then ([], s, Ret (inl ECONNREFUSED))
  else if sock_file s then ([], s, Ret (inr tt))
  else ([], s, Ret (inl ENOENT)).

(** [send(sock, p, strlen(p), 0)] *)
Definition send (sock : unit) (p : option string) : M (errno + nat) := fun s =>
  match p with
  | None => ([], s, Fault)
  | Some m =>
      if denied env Csend then ([], s, Ret (inl EOTHER))
      else ([EvSend (firstn (strlen m) (cstr_bytes m))], s, Ret (inr (strlen m)))
  end.

(** [unlink(SOCKET_PATH)] *)
Definition unlink : M unit := fun s => ([], set_sock_file false s, Ret tt).

(** [bind] to [SOCKET_PATH]: creates the socket file. *)
Definition bind (sock : unit) : M (errno + unit) := fun s =>
  if denied env Cbind || sock_file s then ([], s, Ret (inl EOTHER))
  else ([], set_sock_file true s, Ret (inr tt)).

Definition listen (sock : unit) : M (errno + unit) := fun s =>
  if denied env Clisten then ([], s, Ret (inl EOTHER)) else ([], s, Ret (inr tt)).

(** [accept]: suspends until a peer connects; the connection is given
    by what the peer sends on it. *)
Definition accept (sock : unit) : M (errno + list ascii) := fun s =>
  if denied env Caccept then ([], s, Ret (inl EOTHER))
  else match peer env with
       | Some data => ([], s, Ret (inr data))
       | None => ([], s, Block)
       end.

(** [recv(client_sock, buffer, len, 0)]: at most [len] bytes of the
    stream are stored at the start of [buffer]; returns their number
    and the array. *)
Definition recv (client_sock : list ascii) (buffer : list ascii) (len : nat)
  : M (errno + (nat * list ascii)) := fun s =>
  if denied env Crecv then ([], s, Ret (inl EOTHER))
  else
    let got := firstn len client_sock in
    match write_at 0 got buffer with
    | Some buffer' => ([EvRecv (length got)], s, Ret (inr (length got, buffer')))
    | None => ([], s, Fault)
    end.

(** [buffer[i] = c] for a local array: outside the array the
    behaviour is undefined. *)
Definition store_char (buffer : list ascii) (i : nat) (c : ascii) : M (list ascii) :=
  match write_at i [c] buffer with
  | Some buffer' => ret buffer'
  | None => fault
  end.

Definition close {A} (fd : A) : M unit := ret tt.
End Calls.

(** ** Command line *)

(** What one call of [getopt(argc, argv, "pcm:q:use")] returns: one of
    the option characters, with [optarg] for [m] and [q], or ['?'] for
    an option character that is not in the string and for an [m] or [q]
    without its argument, with the offending character in [optopt].
    The end of the options (-1) is the end of the list. *)
Inductive getopt_ret :=
| Opt_p | Opt_c | Opt_m (optarg : string) | Opt_q (optarg : string)
| Opt_u | Opt_s | Opt_e | Opt_unknown (optopt : ascii).

Definition isspace (c : ascii) : bool :=
  let n := nat_of_ascii c in ((9 <=? n) && (n <=? 13) || (n =? 32))%nat.

Definition isdigit (c : ascii) : bool :=
  let n := nat_of_ascii c in ((48 <=? n) && (n <=? 57))%nat.

Fixpoint skip_spaces (s : string) : string :=
  match s with
  | String c s' => if isspace c then skip_spaces s' else s
  | EmptyString => s
  end.

Fixpoint digits_value (acc : Z) (s : string) : Z :=
  match s with
  | String c s' =>
      if isdigit c
      then digits_value (10 * acc + (Z.of_nat (nat_of_ascii c) - 48)) s'
      else acc
  | EmptyString => acc
  end.

Definition LONG_MAX : Z := 2 ^ 63 - 1.
Definition LONG_MIN : Z := - 2 ^ 63.

(** [strtol(s, NULL, 10)]: blanks, a sign, decimal digits; saturates. *)
Definition strtol (s : string) : Z :=
  let v := match skip_spaces s with
           | String "-" r => - digits_value 0 r
           | String "+" r => digits_value 0 r
           | r => digits_value 0 r
           end in
  Z.max LONG_MIN (Z.min LONG_MAX v).

(** Conversion of a [long] to [int]: the low 32 bits, signed. *)
Definition to_int (v : Z) : Z := (v + 2 ^ 31) mod 2 ^ 32 - 2 ^ 31.

(** [atoi(s)], which is [(int) strtol(s, NULL, 10)]. *)
Definition atoi (s : string) : Z := to_int (strtol s).

Definition fprintf_stderr (msg : string) : M unit := emit (EvStderr msg).

Definition usage (argv0 : string) : string :=
  nl ("Usage: " ++ argv0 ++ " -p|-c -m message -q depth -u|-s [-e]")%string.

(** The line [getopt] itself writes to standard error before it returns
    ['?']: the program leaves [opterr] at 1 and its option string does
    not start with a colon.  The text is the C library's. *)
Definition getopt_error (argv0 : string) (optopt : ascii) : string :=
  let what :=
    if (Ascii.eqb optopt "m" || Ascii.eqb optopt "q")%bool
    then ": option requires an argument -- '"
    else ": invalid option -- '" in
  nl (argv0 ++ what ++ String optopt "'")%string.

Definition set_is_producer (v : Z) (a : Arguments) : Arguments :=
  {| is_producer := v; is_consumer := is_consumer a; arg_message := arg_message a;
     queue_depth := queue_depth a; use_socket := use_socket a;
     use_shared_memory := use_shared_memory a; enable_echo := enable_echo a |}.
Definition set_is_consumer (v : Z) (a : Arguments) : Arguments :=
  {| is_producer := is_producer a; is_consumer := v; arg_message := arg_message a;
     queue_depth := queue_depth a; use_socket := use_socket a;
     use_shared_memory := use_shared_memory a; enable_echo := enable_echo a |}.
Definition set_message (v : option string) (a : Arguments) : Arguments :=
  {| is_producer := is_producer a; is_consumer := is_consumer a; arg_message := v;
     queue_depth := queue_depth a; use_socket := use_socket a;
     use_shared_memory := use_shared_memory a; enable_echo := enable_echo a |}.
Definition set_queue_depth (v : Z) (a : Arguments) : Arguments :=
  {| is_producer := is_producer a; is_consumer := is_consumer a; arg_message := arg_message a;
     queue_depth := v; use_socket := use_socket a;
     use_shared_memory := use_shared_memory a; enable_echo := enable_echo a |}.
Definition set_use_socket (v : Z) (a : Arguments) : Arguments :=
  {| is_producer := is_producer a; is_consumer := is_consumer a; arg_message := arg_message a;
     queue_depth := queue_depth a; use_socket := v;
     use_shared_memory := use_shared_memory a; enable_echo := enable_echo a |}.
Definition set_use_shared_memory (v : Z) (a : Arguments) : Arguments :=
  {| is_producer := is_producer a; is_consumer := is_consumer a; arg_message := arg_message a;
     queue_depth := queue_depth a; use_socket := use_socket a;
     use_shared_memory := v; enable_echo := enable_echo a |}.
Definition set_enable_echo (v : Z) (a : Arguments) : Arguments :=
  {| is_producer := is_producer a; is_consumer := is_consumer a; arg_message := arg_message a;
     queue_depth := queue_depth a; use_socket := use_socket a;
     use_shared_memory := use_shared_memory a; enable_echo := v |}.

(** The [while ((opt = getopt(...)) != -1) switch (opt)] loop. *)
Fixpoint option_loop (argv0 : string) (opts : list getopt_ret) (args : Arguments)
  : M Arguments :=
  match opts with
  | [] => ret args
  | opt :: rest =>
      match opt with
      | Opt_p => option_loop argv0 rest (set_is_producer 1 args)
      | Opt_c => option_loop argv0 rest (set_is_consumer 1 args)
      | Opt_m optarg => option_loop argv0 rest (set_message (Some optarg) args)
      | Opt_q optarg => option_loop argv0 rest (set_queue_depth (atoi optarg) args)
      | Opt_u => option_loop argv0 rest (set_use_socket 1 args)
      | Opt_s => option_loop argv0 rest (set_use_shared_memory 1 args)
      | Opt_e => option_loop argv0 rest (set_enable_echo 1 args)
      | Opt_unknown optopt =>
          (* written by getopt *)
          fprintf_stderr (getopt_error argv0 optopt) ;;
          (* default: *)
          fprintf_stderr (usage argv0) ;; exit 1
      end
  end.

Definition parse_arguments (argv0 : string) (opts : list getopt_ret) (args : Arguments)
  : M Arguments :=
  args <- option_loop argv0 opts args ;;
  (* Validate required arguments *)
  match arg_message args with
  | None => fprintf_stderr (nl "Error: Message (-m) is required") ;; exit 1
  | Some _ =>
      if queue_depth args <=? 0
      then fprintf_stderr (nl "Error: Queue depth (-q) must be positive") ;; exit 1
      else ret args
  end.

(** ** The four transfers *)

Section Program.
Variable env : Env.

Definition producer_socket (args : Arguments) : M unit :=
  (* Create socket *)
  sock <- checked "socket" (socket env) ;;
  (* Connect to the socket *)
  checked "connect" (connect env sock) ;;
  (* Send message *)
  checked "send" (send env sock (arg_message args)) ;;
  (if truthy (enable_echo args) then printf_line (arg_message args) else ret tt) ;;
  close sock.

Definition consumer_socket (args : Arguments) : M unit :=
  let buffer := uninit env MAX_MESSAGE_LENGTH in
  (* Create socket *)
  sock <- checked "socket" (socket env) ;;
  (* Remove existing socket file if it exists *)
  unlink ;;
  (* Bind socket *)
  checked "bind" (bind env sock) ;;
  (* Listen for connections *)
  checked "listen" (listen env sock) ;;
  (* Accept connection *)
  client_sock <- checked "accept" (accept env sock) ;;
  (* Receive message *)
  r <- checked "recv" (recv env client_sock buffer (length buffer)) ;;
  let '(received, buffer) := r in
  buffer <- store_char buffer received NUL ;;
  (if truthy (enable_echo args) then printf_buffer buffer else ret tt) ;;
  close client_sock ;;
  close sock ;;
  unlink.

Definition producer_shared_memory (args : Arguments) : M unit :=
  (* Generate unique key *)
  key <- checked "ftok" (ftok env) ;;
  (* Create shared memory segment *)
  shmid <- checked "shmget" (shmget env key true) ;;
  (* Attach shared memory *)
  shared_queue <- checked "shmat" (shmat env shmid) ;;
  (* Create semaphores *)
  mutex <- sem_open env MUTEX_SEM true 1 ;;
  empty <- sem_open env EMPTY_SEM true (queue_depth args) ;;
  full <- sem_open env FULL_SEM true 0 ;;
  (* Wait for empty slot *)
  sem_wait empty ;;
  sem_wait mutex ;;
  (* Produce message *)
  queue_strcpy shared_queue (arg_message args) ;;
  queue_set_is_empty shared_queue 0 ;;
  (if truthy (enable_echo args) then printf_line (arg_message args) else ret tt) ;;
  (* Signal semaphores *)
  sem_post mutex ;;
  sem_post full ;;
  (* Detach shared memory *)
  shmdt shared_queue ;;
  (* Close semaphores *)
  sem_close mutex ;;
  sem_close empty ;;
  sem_close full ;;
  ret tt.

Definition consumer_shared_memory (args : Arguments) : M unit :=
  let buffer := uninit env MAX_MESSAGE_LENGTH in
  (* Generate unique key *)
  key <- checked "ftok" (ftok env) ;;
  (* Access shared memory segment *)
  shmid <- checked "shmget" (shmget env key false) ;;
  (* Attach shared memory *)
  shared_queue <- checked "shmat" (shmat env shmid) ;;
  (* Open semaphores *)
  mutex <- sem_open env MUTEX_SEM false 0 ;;
  empty <- sem_open env EMPTY_SEM false 0 ;;
  full <- sem_open env FULL_SEM false 0 ;;
  (* Wait for full slot *)
  sem_wait full ;;
  sem_wait mutex ;;
  (* Consume message *)
  buffer <- strcpy_from_queue buffer shared_queue ;;
  queue_set_is_empty shared_queue 1 ;;
  (if truthy (enable_echo args) then printf_buffer buffer else ret tt) ;;
  (* Signal semaphores *)
  sem_post mutex ;;
  sem_post empty ;;
  (* Detach shared memory *)
  shmdt shared_queue ;;
  (* Close semaphores *)
  sem_close mutex ;;
  sem_close empty ;;
  sem_close full ;;
  (* Optional: Remove shared memory and semaphores *)
  shmctl_rmid shmid ;;
  sem_unlink MUTEX_SEM ;;
  sem_unlink EMPTY_SEM ;;
  sem_unlink FULL_SEM ;;
  ret tt.

Definition main (argv0 : string) (opts : list getopt_ret) : M Z :=
  args <- parse_arguments argv0 opts args_zero ;;
  (* Validate arguments *)
  if negb (truthy (Z.lxor (is_producer args) (is_consumer args)))
  then fprintf_stderr (nl "Error: Must specify exactly one of -p or -c") ;; exit 1
  else if truthy (use_socket args) && truthy (use_shared_memory args)
  then fprintf_stderr (nl "Error: Cannot use both socket and shared memory") ;; exit 1
  else if negb (truthy (use_socket args)) && negb (truthy (use_shared_memory args))
  then fprintf_stderr (nl "Error: Must specify either -u or -s") ;; exit 1
  else
    (* Execute based on mode *)
    (if truthy (use_socket args)
     then if truthy (is_producer args)
          then producer_socket args
          else consumer_socket args
     else if truthy (is_producer args)
          then producer_shared_memory args
          else consumer_shared_memory args) ;;
    ret 0.
End Program.

(** The arguments of a shared-memory run. *)
Definition mkargs (msg : string) (depth : Z) (echo : Z) : Arguments :=
  {| is_producer := 0; is_consumer := 0; arg_message := Some msg; queue_depth := depth;
     use_socket := 0; use_shared_memory := 1; enable_echo := echo |}.

(** * Vocabulary of the statements *)

(** ** Summaries of a run *)

(** What [sem_post] on [name] emits, and the count it leaves, when the
    count was [v]. *)
Definition post_event (name : string) (v : Z) : event :=
  if v <? SEM_VALUE_MAX then EvSemPost name else EvSemPostFailed name.

Definition post_count (v : Z) : Z :=
  if v <? SEM_VALUE_MAX then v + 1 else v.

(** What the echo statement emits for the message [s]. *)
Definition echo_events (args : Arguments) (s : string) : list event :=
  if truthy (enable_echo args) then [EvStdout (nl s)] else [].

(** The segment, or a semaphore, did not exist. *)
Definition absent {A} (o : option A) : bool :=
  match o with None => true | Some _ => false end.

(** ** Creation of resources *)

(** The event of a call that created a segment or a semaphore. *)
Definition creation (e : event) : bool :=
  match e with
  | EvShmget true | EvSemOpen _ true _ => true
  | _ => false
  end.

(** [s'] has no named resource that [s] lacks. *)
Definition no_new_resource (s s' : OS) : Prop :=
  (shm s = None -> shm s' = None) /\
  (forall n, sems s !! n = None -> sems s' !! n = None).

(** No call fails for a cause outside the state. *)
Definition no_denial (env : Env) : Prop := forall c, denied env c = false.

(** ** Roles and the mutex discipline *)

Inductive role := Producer | Consumer.

Definition shared_memory_run (env : Env) (r : role) (args : Arguments) : M unit :=
  match r with
  | Producer => producer_shared_memory env args
  | Consumer => consumer_shared_memory env args
  end.


(** A unit of [n] was taken; a unit was given to [n]. *)
Definition is_wait (n : string) (e : event) : bool :=
  match e with EvSemWait n' => String.eqb n n' | _ => false end.

Definition is_post (n : string) (e : event) : bool :=
  match e with EvSemPost n' => String.eqb n n' | _ => false end.



(** The number of events of [tr] that satisfy [p]. *)
Definition count (p : event -> bool) (tr : list event) : nat :=
  length (List.filter p tr).




(** ** Opening of semaphores *)

Definition is_sem_open (e : event) : bool :=
  match e with EvSemOpen _ _ _ => true | _ => false end.

(** The units [tr] gave to the semaphore [n], less those it took. *)
Definition units_moved (n : string) (tr : list event) : Z :=
  Z.of_nat (count (is_post n) tr) - Z.of_nat (count (is_wait n) tr).

(** Relations between the state before and after a call. *)
Definition same_sems (s s' : OS) : Prop := sems s' = sems s.

Definition any_state (s s' : OS) : Prop := True.

(** What follows the last [sem_open] in the producer, and the last
    [sem_wait] in the consumer. *)
Definition producer_transfer (args : Arguments) (shared_queue : unit)
    (mutex empty full : sem_t) : M unit :=
  sem_wait empty ;;
  sem_wait mutex ;;
  queue_strcpy shared_queue (arg_message args) ;;
  queue_set_is_empty shared_queue 0 ;;
  (if truthy (enable_echo args) then printf_line (arg_message args) else ret tt) ;;
  sem_post mutex ;;
  sem_post full ;;
  shmdt shared_queue ;;
  sem_close mutex ;;
  sem_close empty ;;
  sem_close full ;;
  ret tt.

Definition consumer_transfer (env : Env) (args : Arguments) (shmid shared_queue : unit)
    (mutex empty full : sem_t) : M unit :=
  buffer <- strcpy_from_queue (uninit env MAX_MESSAGE_LENGTH) shared_queue ;;
  queue_set_is_empty shared_queue 1 ;;
  (if truthy (enable_echo args) then printf_buffer buffer else ret tt) ;;
  sem_post mutex ;;
  sem_post empty ;;
  shmdt shared_queue ;;
  sem_close mutex ;;
  sem_close empty ;;
  sem_close full ;;
  shmctl_rmid shmid ;;
  sem_unlink MUTEX_SEM ;;
  sem_unlink EMPTY_SEM ;;
  sem_unlink FULL_SEM ;;
  ret tt.

(** The value [sem_open] gives a semaphore it creates. *)
Definition initial_count (args : Arguments) (n : string) : Z :=
  if String.eqb n MUTEX_SEM then 1
  else if String.eqb n EMPTY_SEM then queue_depth args
  else 0.

(** The count of [n] after a run of role [r] with trace [tr], from
    state [s] to state [s'], is accounted for: a semaphore that existed
    has the count it had, changed by the waits and posts of the run
    only, or was unlinked by a consumer; one that did not exist was
    created by a producer with its initial count, changed likewise. *)
Definition count_accounted (r : role) (args : Arguments) (s s' : OS) (tr : list event)
    (n : string) : Prop :=
  match sems s !! n, sems s' !! n with
  | Some v, Some v' => v' = v + units_moved n tr
  | Some _, None => r = Consumer /\ In (EvSemUnlink n) tr
  | None, Some v' =>
      r = Producer /\ In (EvSemOpen n true (initial_count args n)) tr /\
      v' = initial_count args n + units_moved n tr
  | None, None => True
  end.

(** The calls a producer begins with when none fails: each creates
    exactly when what it asks for is absent, and a semaphore that exists
    is opened at the count it has. *)
Definition opening_calls (args : Arguments) (s : OS) : list event :=
  [EvShmget (absent (shm s)); EvShmat;
   EvSemOpen MUTEX_SEM (absent (sems s !! MUTEX_SEM)) (default 1 (sems s !! MUTEX_SEM));
   EvSemOpen EMPTY_SEM (absent (sems s !! EMPTY_SEM))
     (default (queue_depth args) (sems s !! EMPTY_SEM));
   EvSemOpen FULL_SEM (absent (sems s !! FULL_SEM)) (default 0 (sems s !! FULL_SEM))].

(** The segment exists in [s'], and its buffer is the one it had in [s]
    (zero bytes when it did not exist), as it was or with the message of
    [args] copied into it. *)
Definition segment_kept_or_written (args : Arguments) (s s' : OS) : Prop :=
  exists q',
    shm s' = Some q' /\
    let before := message (default queue_zero (shm s)) in
    message q' = before \/
    exists msg, arg_message args = Some msg /\ strcpy before msg = Some (message q').

(** ** States and environments of the failing inputs *)

(** A mailbox holding [msg]. *)
Definition queue_with (msg : string) : Queue :=
  {| message := default (message queue_zero) (strcpy (message queue_zero) msg);
     is_empty := 0 |}.

(** The segment exists, left by an earlier process; the semaphores do
    not. *)
Definition os_segment_only : OS :=
  {| shm := Some (queue_with "hello"); sems := ∅; sock_file := false |}.

(** The segment and the semaphores exist, and full-slots is at the
    largest value a semaphore can hold. *)
Definition os_full_saturated : OS :=
  {| shm := Some queue_zero;
     sems := <[FULL_SEM := SEM_VALUE_MAX]> (<[EMPTY_SEM := 1]> (<[MUTEX_SEM := 1]> ∅));
     sock_file := false |}.

(** No call fails but the [sem_open] of full-slots. *)
Definition env_no_full : Env :=
  {| denied := fun c => match c with
                        | Csem_open name => String.eqb name FULL_SEM
                        | _ => false
                        end;
     peer := None;
     junk := fun _ => "x"%char |}.

(** A message on the standard error stream. *)
Definition is_report (e : event) : bool :=
  match e with EvStderr _ | EvPerror _ _ => true | _ => false end.

(** A message of [n] characters. *)
Definition long_message (n : nat) : string :=
  string_of_list_ascii (repeat "a"%char n).

(** A producer connects and sends [msg]; no call fails. *)
Definition env_peer (msg : string) : Env :=
  {| denied := fun _ => false;
     peer := Some (list_ascii_of_string msg);
     junk := fun _ => "x"%char |}.

(** ** Command lines *)

(** The options by their character. *)
Definition is_p (o : getopt_ret) : bool := match o with Opt_p => true | _ => false end.

Definition is_c (o : getopt_ret) : bool := match o with Opt_c => true | _ => false end.

Definition is_u (o : getopt_ret) : bool := match o with Opt_u => true | _ => false end.

Definition is_s (o : getopt_ret) : bool := match o with Opt_s => true | _ => false end.

Definition is_unknown (o : getopt_ret) : bool :=
  match o with Opt_unknown _ => true | _ => false end.

(** The argument of the last [-m], and of the last [-q]. *)
Fixpoint last_m (opts : list getopt_ret) (acc : option string) : option string :=
  match opts with
  | [] => acc
  | Opt_m a :: rest => last_m rest (Some a)
  | _ :: rest => last_m rest acc
  end.

Fixpoint last_q (opts : list getopt_ret) (acc : option string) : option string :=
  match opts with
  | [] => acc
  | Opt_q a :: rest => last_q rest (Some a)
  | _ :: rest => last_q rest acc
  end.

(** The character of the first option [getopt] does not accept. *)
Fixpoint first_unknown (opts : list getopt_ret) : option ascii :=
  match opts with
  | [] => None
  | Opt_unknown optopt :: _ => Some optopt
  | _ :: rest => first_unknown rest
  end.

(** What [getopt] writes to standard error on a command line. *)
Definition getopt_lines (argv0 : string) (opts : list getopt_ret) : list string :=
  match first_unknown opts with
  | Some optopt => [getopt_error argv0 optopt]
  | None => []
  end.

(** The command lines the program refuses: an option it does not know,
    not exactly one of [-p] and [-c], not exactly one of [-u] and [-s],
    no [-m], or no [-q] with a positive value. *)
Definition cli_violation (opts : list getopt_ret) : bool :=
  existsb is_unknown opts
  || Bool.eqb (existsb is_p opts) (existsb is_c opts)
  || Bool.eqb (existsb is_u opts) (existsb is_s opts)
  || match last_m opts None with None => true | Some _ => false end
  || match last_q opts None with None => true | Some a => atoi a <=? 0 end.

(** What the option loop leaves in [args] when it meets no unknown
    option. *)
Fixpoint scan (opts : list getopt_ret) (args : Arguments) : Arguments :=
  match opts with
  | [] => args
  | Opt_p :: rest => scan rest (set_is_producer 1 args)
  | Opt_c :: rest => scan rest (set_is_consumer 1 args)
  | Opt_m a :: rest => scan rest (set_message (Some a) args)
  | Opt_q a :: rest => scan rest (set_queue_depth (atoi a) args)
  | Opt_u :: rest => scan rest (set_use_socket 1 args)
  | Opt_s :: rest => scan rest (set_use_shared_memory 1 args)
  | Opt_e :: rest => scan rest (set_enable_echo 1 args)
  | Opt_unknown _ :: rest => scan rest args
  end.

(** ** The run a command line selects *)

Definition is_e (o : getopt_ret) : bool := match o with Opt_e => true | _ => false end.

(** The value the option loop leaves in a flag. *)
Definition flag (b : bool) : Z := if b then 1 else 0.

(** The arguments a command line without unknown option is parsed to. *)
Definition args_of (opts : list getopt_ret) : Arguments :=
  {| is_producer := flag (existsb is_p opts);
     is_consumer := flag (existsb is_c opts);
     arg_message := last_m opts None;
     queue_depth := match last_q opts None with Some a => atoi a | None => 0 end;
     use_socket := flag (existsb is_u opts);
     use_shared_memory := flag (existsb is_s opts);
     enable_echo := flag (existsb is_e opts) |}.

Inductive transport := Socket | SharedMemory.

(** The four functions [main] chooses from. *)
Definition transfer (env : Env) (t : transport) (r : role) (args : Arguments) : M unit :=
  match t, r with
  | Socket, Producer => producer_socket env args
  | Socket, Consumer => consumer_socket env args
  | SharedMemory, Producer => producer_shared_memory env args
  | SharedMemory, Consumer => consumer_shared_memory env args
  end.

Definition selected_transport (opts : list getopt_ret) : transport :=
  if existsb is_u opts then Socket else SharedMemory.

Definition selected_role (opts : list getopt_ret) : role :=
  if existsb is_p opts then Producer else Consumer.

(** The message [main] refuses a command line with: the checks in the
    order the code makes them. *)
Definition diagnostic (argv0 : string) (opts : list getopt_ret) : string :=
  if existsb is_unknown opts then usage argv0
  else match last_m opts None with
       | None => nl "Error: Message (-m) is required"
       | Some _ =>
           if match last_q opts None with Some a => atoi a <=? 0 | None => true end
           then nl "Error: Queue depth (-q) must be positive"
           else if Bool.eqb (existsb is_p opts) (existsb is_c opts)
           then nl "Error: Must specify exactly one of -p or -c"
           else if existsb is_u opts
           then nl "Error: Cannot use both socket and shared memory"
           else nl "Error: Must specify either -u or -s"
       end.

(** ** Ends of a run *)

Definition is_stdout (e : event) : bool :=
  match e with EvStdout _ => true | _ => false end.

(** The last event of [tr] is a message on the standard error stream. *)
Definition ends_with_report (tr : list event) : bool :=
  match last tr with
  | Some e => is_report e
  | None => false
  end.

(** The process status [main] may end with: 0 by returning, 1 by
    [exit], the latter right after a message on standard error. *)
Definition status_ok (x : list event * OS * result Z) : bool :=
  match result_of x with
  | Ret v => v =? 0
  | Exit c => (c =? 1) && ends_with_report (trace_of x)
  | Block | Fault => true
  end.

(** ** States *)

(** [s'] has every named resource that [s] has. *)
Definition resources_kept (s s' : OS) : Prop :=
  (shm s' = None -> shm s = None) /\
  (forall n, sems s' !! n = None -> sems s !! n = None).

(** The parts of the state a transport has no business with. *)
Definition foreign_part_kept (t : transport) (s s' : OS) : Prop :=
  match t with
  | Socket => shm s' = shm s /\ sems s' = sems s
  | SharedMemory => sock_file s' = sock_file s
  end.

(** The segment and the three semaphores exist, with the given counts. *)
Definition resources_at (s : OS) (q : Queue) (cm ce cf : Z) : Prop :=
  shm s = Some q /\
  sems s !! MUTEX_SEM = Some cm /\ sems s !! EMPTY_SEM = Some ce /\
  sems s !! FULL_SEM = Some cf.

(** None of them exists. *)
Definition no_resources (s : OS) : Prop :=
  shm s = None /\
  sems s !! MUTEX_SEM = None /\ sems s !! EMPTY_SEM = None /\
  sems s !! FULL_SEM = None.

(** Producer processes run one after the other, each to its return. *)
Fixpoint producers (env : Env) (l : list Arguments) : M unit :=
  match l with
  | [] => ret tt
  | args :: l' => producer_shared_memory env args ;; producers env l'
  end.

(** The message of [args] fits the mailbox buffer with its NUL. *)
Definition fits (args : Arguments) : Prop :=
  exists msg, arg_message args = Some msg /\ (strlen msg < MAX_MESSAGE_LENGTH)%nat.

(** The message of the last of [l], [d] when [l] is empty. *)
Definition last_message (l : list Arguments) (d : option string) : option string :=
  List.last (map arg_message l) d.

(** The state one producer run with depth 1 leaves: the message in the
    mailbox, no empty slot, one full slot. *)
Definition os_one_message : OS :=
  {| shm := Some (queue_with "hello");
     sems := <[FULL_SEM := 1]> (<[EMPTY_SEM := 0]> (<[MUTEX_SEM := 1]> ∅));
     sock_file := false |}.

(** ** The socket *)

(** The bytes of the first [send] of [tr]: what the peer's [recv] is
    given. *)
Fixpoint sent (tr : list event) : option (list ascii) :=
  match tr with
  | [] => None
  | EvSend bytes :: _ => Some bytes
  | _ :: tr' => sent tr'
  end.

(** * Properties *)

(** ** C strings *)

Lemma c_str_idem s : c_str (c_str s) = c_str s.
Proof.
  induction s as [|c s IH]; simpl; [reflexivity|].
  destruct (is_nul c) eqn:E; simpl; [reflexivity|]. now rewrite E, IH.
Qed.

Lemma length_cstr_bytes s : length (cstr_bytes s) = S (strlen s).
Proof.
  unfold cstr_bytes, strlen. rewrite length_app. simpl.
  assert (H : forall t, length (list_ascii_of_string t) = String.length t).
  { induction t; simpl; congruence. }
  rewrite H. lia.
Qed.

Lemma strcpy_Some dst src :
  (strlen src < length dst)%nat ->
  strcpy dst src = Some (cstr_bytes src ++ skipn (S (strlen src)) dst).
Proof.
  intros H. unfold strcpy, write_at. rewrite length_cstr_bytes.
  destruct (Nat.leb_spec (0 + S (strlen src)) (length dst)); [|lia].
  reflexivity.
Qed.

Lemma strcpy_None dst src :
  (length dst <= strlen src)%nat -> strcpy dst src = None.
Proof.
  intros H. unfold strcpy, write_at. rewrite length_cstr_bytes.
  destruct (Nat.leb_spec (0 + S (strlen src)) (length dst)); [lia|reflexivity].
Qed.

Lemma strcpy_inv dst src buf :
  strcpy dst src = Some buf ->
  (strlen src < length dst)%nat /\
  buf = cstr_bytes src ++ skipn (S (strlen src)) dst.
Proof.
  intros H. destruct (Nat.lt_ge_cases (strlen src) (length dst)) as [Hlt|Hge].
  - rewrite strcpy_Some in H by assumption. split; congruence.
  - rewrite strcpy_None in H by assumption. discriminate.
Qed.

Lemma length_strcpy dst src buf :
  strcpy dst src = Some buf -> length buf = length dst.
Proof.
  intros H. apply strcpy_inv in H as [Hlt ->].
  rewrite length_app, length_cstr_bytes, length_skipn. lia.
Qed.

Lemma read_cstr_bytes s rest : read_cstr (cstr_bytes s ++ rest) = Some (c_str s).
Proof.
  unfold cstr_bytes. induction s as [|c s IH]; simpl; [reflexivity|].
  destruct (is_nul c) eqn:E; simpl; [reflexivity|]. now rewrite E, IH.
Qed.

(** What [strcpy] stored is what a later read of the array finds. *)
Lemma read_strcpy dst src buf :
  strcpy dst src = Some buf -> read_cstr buf = Some (c_str src).
Proof. intros H. apply strcpy_inv in H as [_ ->]. apply read_cstr_bytes. Qed.

Lemma read_cstr_inv buf m :
  read_cstr buf = Some m -> c_str m = m /\ (String.length m < length buf)%nat.
Proof.
  revert m. induction buf as [|c buf IH]; simpl; intros m H; [discriminate|].
  destruct (is_nul c) eqn:E.
  - injection H as <-. simpl. split; [reflexivity|lia].
  - destruct (read_cstr buf) as [m'|]; [|discriminate]. injection H as <-.
    destruct (IH m' eq_refl) as [H1 H2]. simpl. rewrite E, H1. split; [reflexivity|lia].
Qed.

Lemma strlen_read_cstr buf m :
  read_cstr buf = Some m -> (strlen m < length buf)%nat.
Proof. intros H. apply read_cstr_inv in H as [H1 H2]. unfold strlen. now rewrite H1. Qed.

Lemma length_uninit env n : length (uninit env n) = n.
Proof. unfold uninit. now rewrite length_map, length_seq. Qed.

(** ** Symbolic runs *)

Lemma MUTEX_ne_EMPTY : MUTEX_SEM <> EMPTY_SEM. Proof. discriminate. Qed.
Lemma MUTEX_ne_FULL : MUTEX_SEM <> FULL_SEM. Proof. discriminate. Qed.
Lemma EMPTY_ne_FULL : EMPTY_SEM <> FULL_SEM. Proof. discriminate. Qed.
Lemma EMPTY_ne_MUTEX : EMPTY_SEM <> MUTEX_SEM. Proof. discriminate. Qed.
Lemma FULL_ne_MUTEX : FULL_SEM <> MUTEX_SEM. Proof. discriminate. Qed.
Lemma FULL_ne_EMPTY : FULL_SEM <> EMPTY_SEM. Proof. discriminate. Qed.

Create HintDb semnames.
#[local] Hint Resolve MUTEX_ne_EMPTY MUTEX_ne_FULL EMPTY_ne_FULL
  EMPTY_ne_MUTEX FULL_ne_MUTEX FULL_ne_EMPTY : semnames.

(** The term a stuck run waits for: the innermost scrutinee at its head. *)
Ltac head_scrutinee t :=
  lazymatch t with
  | match ?x with _ => _ end => head_scrutinee x
  | (match ?x with _ => _ end) _ => head_scrutinee x
  | _ => t
  end.

(** The run in [H] with the program and the calls unfolded. *)
Ltac unfold_run H :=
  cbv beta iota zeta delta
    [producer_shared_memory consumer_shared_memory producer_socket consumer_socket
     andthen checked ftok shmget shmat
     sem_open sem_wait sem_post sem_close sem_unlink shmdt shmctl_rmid
     queue_strcpy queue_set_is_empty strcpy_from_queue printf_line printf_buffer
     socket connect send unlink bind listen accept recv store_char close
     emit exit ret fault block set_shm set_sems set_sock_file shm sems sock_file app] in H;
  change (1 mod 2 ^ 32) with 1 in H;
  change (0 mod 2 ^ 32) with 0 in H;
  change (1 <=? SEM_VALUE_MAX) with true in H;
  change (0 <=? SEM_VALUE_MAX) with true in H;
  cbv beta iota in H.

Ltac norm_maps H :=
  repeat first
    [ rewrite lookup_insert_eq in H
    | rewrite lookup_insert_ne in H by auto with semnames
    | rewrite lookup_delete_eq in H
    | rewrite lookup_delete_ne in H by auto with semnames ].

(** One step of a run kept in [H : run = outcome]: the condition the run
    waits for is rewritten when the context decides it, and split into
    its cases otherwise. *)
Ltac step H :=
  lazymatch type of H with
  | ?lhs = _ =>
      let x := head_scrutinee lhs in
      first
        [ match goal with E : ?y = _ |- _ => constr_eq x y; rewrite E in H end
        | let E := fresh "E" in destruct x eqn:E; try rewrite E in H ];
      cbv beta iota in H; norm_maps H; try discriminate H
  end.

Ltac run_done H :=
  lazymatch type of H with
  | (_, _, _) = _ => idtac
  end.

Ltac steps H := repeat (first [ run_done H; fail 1 | step H ]).

Ltac run H := unfold_run H; norm_maps H; steps H.

(** *** Runs that return *)

Lemma andthen_Ret_inv {A B} (m : M A) (f : A -> M B) s tr s' b :
  andthen m f s = (tr, s', Ret b) ->
  exists t1 s1 a t2,
    m s = (t1, s1, Ret a) /\ f a s1 = (t2, s', Ret b) /\ tr = t1 ++ t2.
Proof.
  unfold andthen. destruct (m s) as [[t1 s1] [a| | |]]; try discriminate.
  destruct (f a s1) as [[t2 s2] r] eqn:E. intros H. injection H as <- <- ->.
  now exists t1, s1, a, t2.
Qed.

Lemma checked_Ret_inv {A} what (m : M (errno + A)) s t s' a :
  checked what m s = (t, s', Ret a) -> m s = (t, s', Ret (inr a)).
Proof.
  unfold checked. intros H. apply andthen_Ret_inv in H as (t1 & s1 & [e|a'] & t2 & H1 & H2 & ->).
  - apply andthen_Ret_inv in H2 as (? & ? & ? & ? & _ & H3 & _). discriminate H3.
  - injection H2 as <- <- <-. now rewrite app_nil_r.
Qed.

Lemma ftok_inv env s t s' k :
  ftok env s = (t, s', Ret (inr k)) -> t = [] /\ s' = s.
Proof. intros H. run H. now injection H as <- <-. Qed.

Lemma shmget_inv env k creat s t s' id :
  shmget env k creat s = (t, s', Ret (inr id)) ->
  (creat = false -> shm s <> None) /\
  t = [EvShmget (absent (shm s))] /\
  s' = set_shm (Some (default queue_zero (shm s))) s.
Proof.
  destruct s as [q m b]. intros H. run H; injection H as <- <-; cbn.
  all: repeat split; congruence.
Qed.

Lemma shmat_inv env id s t s' p :
  shmat env id s = (t, s', Ret (inr p)) -> t = [EvShmat] /\ s' = s.
Proof. intros H. run H. now injection H as <- <-. Qed.

(** A successful [sem_open]: the count found is the one the semaphore
    had, and the initial value only when the call created it. *)
Lemma sem_open_inv env name creat value s t s' h :
  sem_open env name creat value s = (t, s', Ret h) ->
  match h with
  | None => s' = s /\ exists e, t = [EvSemOpenFailed name e]
  | Some n =>
      n = name /\
      let c := default (value mod 2 ^ 32) (sems s !! name) in
      (creat = false -> sems s !! name <> None) /\
      t = [EvSemOpen name (absent (sems s !! name)) c] /\
      s' = set_sems (<[name := c]> (sems s)) s
  end.
Proof.
  destruct s as [q m b]. intros H.
  cbv beta iota zeta delta [sem_open set_sems sems shm sock_file] in H.
  steps H; injection H as <- <- <-; cbn [sems]; rewrite ?E0; cbn; eauto.
  unfold set_sems; cbn. rewrite insert_id by assumption. repeat split; congruence.
Qed.

Lemma sem_wait_inv h s t s' r :
  sem_wait h s = (t, s', Ret r) ->
  exists n v, h = Some n /\ sems s !! n = Some v /\ 0 < v /\
    t = [EvSemWait n] /\ s' = set_sems (<[n := v - 1]> (sems s)) s.
Proof.
  destruct s as [q m b]. intros H.
  cbv beta iota zeta delta [sem_wait set_sems sems shm sock_file] in H.
  steps H. injection H as <- <- <-. apply Z.ltb_lt in E1. eauto 10.
Qed.

Lemma sem_post_inv h s t s' r :
  sem_post h s = (t, s', Ret r) ->
  exists n v, h = Some n /\ sems s !! n = Some v /\
    t = [post_event n v] /\ s' = set_sems (<[n := post_count v]> (sems s)) s.
Proof.
  destruct s as [q m b]. intros H.
  cbv beta iota zeta delta [sem_post set_sems sems shm sock_file] in H.
  steps H; injection H as <- <- <-; exists s, z; unfold post_event, post_count, set_sems;
    rewrite E1; cbn; repeat split; try assumption.
  now rewrite insert_id.
Qed.

Lemma sem_close_inv h s t s' r :
  sem_close h s = (t, s', Ret r) ->
  exists n, h = Some n /\ t = [EvSemClose n] /\ s' = s.
Proof.
  intros H. destruct h as [n|]; [|discriminate].
  run H. injection H as <- <- <-. eauto.
Qed.

Lemma sem_unlink_inv name s t s' r :
  sem_unlink name s = (t, s', Ret r) ->
  t = [EvSemUnlink name] /\ s' = set_sems (delete name (sems s)) s.
Proof. intros H. unfold sem_unlink in H. injection H as <- <- <-. auto. Qed.

Lemma shmdt_inv p s t s' r :
  shmdt p s = (t, s', Ret r) -> t = [EvShmdt] /\ s' = s.
Proof. intros H. injection H as <- <-. auto. Qed.

Lemma shmctl_rmid_inv id s t s' r :
  shmctl_rmid id s = (t, s', Ret r) -> t = [EvShmRm] /\ s' = set_shm None s.
Proof. intros H. injection H as <- <-. auto. Qed.

Lemma queue_strcpy_inv p src s t s' r :
  queue_strcpy p src s = (t, s', Ret r) ->
  exists q msg buf,
    shm s = Some q /\ src = Some msg /\ strcpy (message q) msg = Some buf /\
    t = [EvStoreMessage (cstr_bytes msg)] /\
    s' = set_shm (Some {| message := buf; is_empty := is_empty q |}) s.
Proof.
  destruct s as [q m b]. intros H.
  cbv beta iota zeta delta [queue_strcpy set_shm sems shm sock_file] in H.
  steps H. injection H as <- <-. eauto 10.
Qed.

Lemma queue_set_is_empty_inv p v s t s' r :
  queue_set_is_empty p v s = (t, s', Ret r) ->
  exists q, shm s = Some q /\ t = [EvStoreFlag v] /\
    s' = set_shm (Some {| message := message q; is_empty := v |}) s.
Proof.
  destruct s as [q m b]. intros H.
  cbv beta iota zeta delta [queue_set_is_empty set_shm sems shm sock_file] in H.
  steps H. injection H as <- <-. eauto 10.
Qed.

Lemma strcpy_from_queue_inv buffer p s t s' buffer' :
  strcpy_from_queue buffer p s = (t, s', Ret buffer') ->
  exists q msg,
    shm s = Some q /\ read_cstr (message q) = Some msg /\
    strcpy buffer msg = Some buffer' /\
    t = [EvLoadMessage (cstr_bytes msg)] /\ s' = s.
Proof.
  destruct s as [q m b]. intros H.
  cbv beta iota zeta delta [strcpy_from_queue set_shm sems shm sock_file] in H.
  steps H. injection H as <- <- <-. eauto 10.
Qed.

Lemma printf_line_inv p s t s' r :
  printf_line p s = (t, s', Ret r) ->
  exists m, p = Some m /\ t = [EvStdout (nl (c_str m))] /\ s' = s.
Proof.
  intros H. destruct p as [m|]; [|discriminate]. injection H as <- <-. eauto.
Qed.

Lemma echo_inv (b : bool) p s t s' r :
  (if b then printf_line p else ret tt) s = (t, s', Ret r) ->
  s' = s /\
  if b then exists m, p = Some m /\ t = [EvStdout (nl (c_str m))] else t = [].
Proof.
  destruct b; intros H.
  - apply printf_line_inv in H as (m & -> & -> & ->). eauto.
  - injection H as <- <-. auto.
Qed.

Lemma ret_inv {A} (a : A) s t s' r :
  ret a s = (t, s', Ret r) -> t = [] /\ s' = s /\ r = a.
Proof. intros H. injection H as <- <- <-. auto. Qed.

(** Inversion of the next statement of a returning run. *)
Ltac invert_call Hm :=
  try apply checked_Ret_inv in Hm;
  first
    [ apply ftok_inv in Hm as [-> ->]
    | apply shmget_inv in Hm as (? & -> & ->)
    | apply shmat_inv in Hm as [-> ->]
    | apply sem_open_inv in Hm
    | apply sem_wait_inv in Hm as (? & ? & ? & ? & ? & -> & ->)
    | apply sem_post_inv in Hm as (? & ? & ? & ? & -> & ->)
    | apply sem_close_inv in Hm as (? & ? & -> & ->)
    | apply sem_unlink_inv in Hm as (-> & ->)
    | apply shmdt_inv in Hm as (-> & ->)
    | apply shmctl_rmid_inv in Hm as (-> & ->)
    | apply queue_strcpy_inv in Hm as (? & ? & ? & ? & ? & ? & -> & ->)
    | apply queue_set_is_empty_inv in Hm as (? & ? & -> & ->)
    | apply strcpy_from_queue_inv in Hm as (? & ? & ? & ? & ? & -> & ->)
    | unfold printf_buffer in Hm; apply echo_inv in Hm as (-> & ?) ].

(** The facts the inversions left, with states and lookups reduced. *)
Ltac tidy :=
  subst; cbn [sems shm sock_file set_sems set_shm] in *;
  repeat match goal with
         | H : _ /\ _ |- _ => destruct H
         | H : exists _, _ |- _ => destruct H
         end;
  subst; cbn [sems shm sock_file set_sems set_shm] in *;
  repeat match goal with
         | H : Some _ = Some _ |- _ => injection H as H; try subst
         end;
  change (1 mod 2 ^ 32) with 1 in *;
  change (0 mod 2 ^ 32) with 0 in *;
  repeat match goal with
         | H : context [(<[_:=_]> _) !! _] |- _ =>
             first [ rewrite lookup_insert_eq in H
                   | rewrite lookup_insert_ne in H by auto with semnames ]
         end;
  repeat match goal with
         | H : Some _ = Some _ |- _ => injection H as H; try subst
         end.

Ltac norm_goal :=
  repeat first
    [ rewrite lookup_insert_eq
    | rewrite lookup_insert_ne by (auto with semnames)
    | rewrite lookup_delete_eq
    | rewrite lookup_delete_ne by (auto with semnames) ].

Ltac next_call H :=
  let Hm := fresh "Hm" in
  apply andthen_Ret_inv in H as (? & ? & ? & ? & Hm & H & ->);
  invert_call Hm.

(** What a producer run that returns has done: the calls it made, in
    order, and the state it leaves, from the state it started in. *)
Lemma producer_returns env args q m b tr s1 :
  producer_shared_memory env args {| shm := q; sems := m; sock_file := b |} = (tr, s1, Ret tt) ->
  exists msg buf,
    let cm := default 1 (m !! MUTEX_SEM) in
    let ce := default (queue_depth args mod 2 ^ 32) (m !! EMPTY_SEM) in
    let cf := default 0 (m !! FULL_SEM) in
    arg_message args = Some msg /\
    strcpy (message (default queue_zero q)) msg = Some buf /\
    0 < cm /\ 0 < ce /\
    tr = [EvShmget (absent q); EvShmat;
          EvSemOpen MUTEX_SEM (absent (m !! MUTEX_SEM)) cm;
          EvSemOpen EMPTY_SEM (absent (m !! EMPTY_SEM)) ce;
          EvSemOpen FULL_SEM (absent (m !! FULL_SEM)) cf;
          EvSemWait EMPTY_SEM; EvSemWait MUTEX_SEM;
          EvStoreMessage (cstr_bytes msg); EvStoreFlag 0]
         ++ echo_events args (c_str msg)
         ++ [post_event MUTEX_SEM (cm - 1); post_event FULL_SEM cf; EvShmdt;
             EvSemClose MUTEX_SEM; EvSemClose EMPTY_SEM; EvSemClose FULL_SEM] /\
    shm s1 = Some {| message := buf; is_empty := 0 |} /\
    sock_file s1 = b /\
    sems s1 !! MUTEX_SEM = Some (post_count (cm - 1)) /\
    sems s1 !! EMPTY_SEM = Some (ce - 1) /\
    sems s1 !! FULL_SEM = Some (post_count cf) /\
    (forall n, n <> MUTEX_SEM -> n <> EMPTY_SEM -> n <> FULL_SEM -> sems s1 !! n = m !! n).
Proof.
  intros H. unfold producer_shared_memory in H.
  do 17 next_call H. apply ret_inv in H as (-> & -> & _).
  tidy. do 2 eexists. norm_goal.
  split; [eassumption|]. split; [eassumption|].
  split; [assumption|]. split; [assumption|].
  split.
  { match goal with Ha : arg_message args = Some _ |- _ => rename Ha into Hmsg end.
    unfold echo_events. destruct (truthy (enable_echo args)).
    - match goal with He : exists _, _ |- _ => destruct He as (m' & Hm' & ->) end.
      rewrite Hmsg in Hm'. injection Hm' as <-. reflexivity.
    - subst. reflexivity. }
  repeat split; intros; norm_goal; reflexivity.
Qed.

(** The same for a consumer run that returns. *)
Lemma consumer_returns env args q m b tr s1 :
  consumer_shared_memory env args {| shm := q; sems := m; sock_file := b |} = (tr, s1, Ret tt) ->
  exists q0 msg buffer cm ce cf,
    q = Some q0 /\
    read_cstr (message q0) = Some msg /\
    strcpy (uninit env MAX_MESSAGE_LENGTH) msg = Some buffer /\
    m !! MUTEX_SEM = Some cm /\ m !! EMPTY_SEM = Some ce /\ m !! FULL_SEM = Some cf /\
    0 < cm /\ 0 < cf /\
    tr = [EvShmget false; EvShmat;
          EvSemOpen MUTEX_SEM false cm;
          EvSemOpen EMPTY_SEM false ce;
          EvSemOpen FULL_SEM false cf;
          EvSemWait FULL_SEM; EvSemWait MUTEX_SEM;
          EvLoadMessage (cstr_bytes msg); EvStoreFlag 1]
         ++ echo_events args msg
         ++ [post_event MUTEX_SEM (cm - 1); post_event EMPTY_SEM ce; EvShmdt;
             EvSemClose MUTEX_SEM; EvSemClose EMPTY_SEM; EvSemClose FULL_SEM;
             EvShmRm; EvSemUnlink MUTEX_SEM; EvSemUnlink EMPTY_SEM;
             EvSemUnlink FULL_SEM] /\
    shm s1 = None /\
    sock_file s1 = b /\
    sems s1 !! MUTEX_SEM = None /\
    sems s1 !! EMPTY_SEM = None /\
    sems s1 !! FULL_SEM = None /\
    (forall n, n <> MUTEX_SEM -> n <> EMPTY_SEM -> n <> FULL_SEM -> sems s1 !! n = m !! n).
Proof.
  intros H. unfold consumer_shared_memory in H.
  do 21 next_call H. apply ret_inv in H as (-> & -> & _).
  tidy.
  repeat match goal with H : false = false -> _ |- _ => specialize (H eq_refl) end.
  destruct q as [q0|]; [|congruence].
  destruct (m !! MUTEX_SEM) as [cm|] eqn:Em; [|congruence].
  destruct (m !! EMPTY_SEM) as [ce|] eqn:Ee; [|congruence].
  destruct (m !! FULL_SEM) as [cf|] eqn:Ef; [|congruence].
  cbn [from_option id absent] in *.
  match goal with
  | Hr : read_cstr (message q0) = Some ?msg, Hc : strcpy _ ?msg = Some ?buf |- _ =>
      exists q0, msg, buf, cm, ce, cf;
      pose proof (read_strcpy _ _ _ Hc) as Hb;
      destruct (read_cstr_inv _ _ Hr) as [Hm _]; rewrite Hm in Hb
  end.
  norm_goal. rewrite ?Em, ?Ee, ?Ef. cbn [from_option id absent].
  repeat (split; [first [reflexivity | assumption]|]).
  split.
  { unfold echo_events. destruct (truthy (enable_echo args)).
    - match goal with He : exists _, _ |- _ => destruct He as (m' & Hm' & ->) end.
      rewrite Hb in Hm'. injection Hm' as <-. rewrite Hm. reflexivity.
    - subst. reflexivity. }
  repeat split; intros; norm_goal; reflexivity.
Qed.

(** *** Runs, whatever their end *)

Lemma andthen_inv {A B} (m : M A) (f : A -> M B) s tr s' r :
  andthen m f s = (tr, s', r) ->
  (exists t1 s1 a t2, m s = (t1, s1, Ret a) /\ f a s1 = (t2, s', r) /\ tr = t1 ++ t2) \/
  (exists r0, m s = (tr, s', r0) /\ forall a, r0 <> Ret a).
Proof.
  unfold andthen. destruct (m s) as [[t1 s1] [a| | |]].
  - destruct (f a s1) as [[t2 s2] r2] eqn:E. intros H. injection H as <- <- <-.
    left. now exists t1, s1, a, t2.
  - intros H. injection H as <- <- <-. right. eexists. split; [reflexivity|discriminate].
  - intros H. injection H as <- <- <-. right. eexists. split; [reflexivity|discriminate].
  - intros H. injection H as <- <- <-. right. eexists. split; [reflexivity|discriminate].
Qed.

Section Respects.
Variable R : OS -> OS -> Prop.
Variable P : event -> Prop.
Hypothesis R_refl : forall s, R s s.
Hypothesis R_trans : forall s1 s2 s3, R s1 s2 -> R s2 s3 -> R s1 s3.

(** Whatever the end of [m], each event it emits satisfies [P] and the
    state it leaves is related by [R] to the one it started in. *)
Definition respects {A} (m : M A) : Prop :=
  forall s, Forall P (trace_of (m s)) /\ R s (state_of (m s)).

Lemma respects_andthen {A B} (m : M A) (f : A -> M B) :
  respects m -> (forall a, respects (f a)) -> respects (andthen m f).
Proof.
  intros Hm Hf s. specialize (Hm s). unfold andthen, trace_of, state_of in *.
  destruct (m s) as [[t1 s1] [a| | |]]; cbn in *; try assumption.
  specialize (Hf a s1). unfold trace_of, state_of in Hf.
  destruct (f a s1) as [[t2 s2] r]; cbn in *. destruct Hm, Hf. split.
  - apply Forall_app; auto.
  - eauto.
Qed.

Lemma respects_emit e : P e -> respects (emit e).
Proof. intros He s. cbn. auto. Qed.

Lemma respects_checked {A} what (m : M (errno + A)) :
  (forall e, P (EvPerror what e)) -> respects m -> respects (checked what m).
Proof.
  intros HP Hm. unfold checked. apply respects_andthen; [assumption|].
  intros [e|a].
  - apply respects_andthen; [now apply respects_emit|]. intros _ s. cbn. auto.
  - intros s. cbn. auto.
Qed.
End Respects.

(** *** The consumer creates nothing *)

Lemma no_new_resource_refl s : no_new_resource s s.
Proof. split; auto. Qed.

Lemma no_new_resource_trans s1 s2 s3 :
  no_new_resource s1 s2 -> no_new_resource s2 s3 -> no_new_resource s1 s3.
Proof. intros [H1 H2] [H3 H4]. split; auto. Qed.

(** The cases of one call. *)
Ltac break_call :=
  repeat match goal with
         | |- context [match ?x with _ => _ end] => destruct x eqn:?
         end.

Ltac no_new_call :=
  let s := fresh "s" in
  intros s; destruct s as [? ? ?]; unfold trace_of, state_of;
  cbv beta iota zeta delta
    [ftok shmget shmat sem_open sem_wait sem_post sem_close sem_unlink shmdt
     shmctl_rmid queue_strcpy queue_set_is_empty strcpy_from_queue printf_line
     printf_buffer emit exit ret fault block andthen set_shm set_sems set_sock_file];
  break_call; cbn [fst snd app];
  cbn [shm sems sock_file] in *;
  (split; [solve [repeat constructor] | split; cbn [shm sems]; intros; try congruence]);
  rewrite ?lookup_insert_ne by (intros ->; congruence);
  rewrite ?lookup_delete_None; auto.

Lemma consumer_never_creates env args :
  respects no_new_resource (fun e => creation e = false)
    (consumer_shared_memory env args).
Proof.
  unfold consumer_shared_memory.
  repeat lazymatch goal with
         | |- respects _ _ (checked _ _) =>
             apply (respects_checked _ _ no_new_resource_refl no_new_resource_trans);
             [reflexivity|]
         | |- respects _ _ (andthen _ _) =>
             apply (respects_andthen _ _ no_new_resource_trans); [|intros ?]
         | |- respects _ _ _ => no_new_call
         end.
Qed.

(** *** Runs whose conditions the context decides *)

Lemma depth_as_unsigned d :
  0 < d <= SEM_VALUE_MAX -> d mod 2 ^ 32 = d.
Proof. unfold SEM_VALUE_MAX. intros H. apply Z.mod_small. lia. Qed.

(** From a state without the segment and the semaphores, a producer that
    no call fails on returns. *)
Lemma producer_fresh_returns env args s msg :
  no_denial env ->
  shm s = None ->
  sems s !! MUTEX_SEM = None -> sems s !! EMPTY_SEM = None -> sems s !! FULL_SEM = None ->
  arg_message args = Some msg ->
  (strlen msg < MAX_MESSAGE_LENGTH)%nat ->
  0 < queue_depth args <= SEM_VALUE_MAX ->
  result_of (producer_shared_memory env args s) = Ret tt.
Proof.
  intros Hd Hq Hm He Hf Ha Hlen Hdepth. destruct s as [q m b]. cbn [shm sems] in Hq, Hm, He, Hf.
  destruct (producer_shared_memory env args _) as [[tr s1] r] eqn:H. 
  cbn [result_of snd].
  pose proof (Hd Cftok). pose proof (Hd Cshmget). pose proof (Hd Cshmat).
  pose proof (Hd (Csem_open MUTEX_SEM)). pose proof (Hd (Csem_open EMPTY_SEM)).
  pose proof (Hd (Csem_open FULL_SEM)).
  assert (Hs : strcpy (message queue_zero) msg
               = Some (cstr_bytes msg ++ skipn (S (strlen msg)) (message queue_zero))).
  { apply strcpy_Some. cbn [message queue_zero]. now rewrite repeat_length. }
  assert (Hle : (queue_depth args <=? SEM_VALUE_MAX) = true) by (apply Z.leb_le; lia).
  assert (Hlt : (0 <? queue_depth args) = true) by (apply Z.ltb_lt; lia).
  assert (E1 : (0 <? 1) = true) by reflexivity.
  assert (E2 : (1 - 1 <? SEM_VALUE_MAX) = true) by reflexivity.
  assert (E3 : (0 <? SEM_VALUE_MAX) = true) by reflexivity.
  unfold_run H. rewrite (depth_as_unsigned _ Hdepth) in H. norm_maps H.
  steps H; now injection H.
Qed.

(** With the segment and the semaphores in place, a message in the
    mailbox and positive counts of full-slots and mutex, a consumer that
    no call fails on returns. *)
Lemma consumer_ready_returns env args s q msg cm ce cf :
  no_denial env ->
  shm s = Some q ->
  length (message q) = MAX_MESSAGE_LENGTH ->
  read_cstr (message q) = Some msg ->
  sems s !! MUTEX_SEM = Some cm -> sems s !! EMPTY_SEM = Some ce ->
  sems s !! FULL_SEM = Some cf ->
  0 < cm -> 0 < cf ->
  result_of (consumer_shared_memory env args s) = Ret tt.
Proof.
  intros Hd Hq Hlen Hr Hm He Hf Hcm Hcf. destruct s as [q' m b]. cbn [shm sems] in Hq, Hm, He, Hf.
  destruct (consumer_shared_memory env args _) as [[tr s1] r] eqn:H. cbn [result_of snd].
  pose proof (Hd Cftok). pose proof (Hd Cshmget). pose proof (Hd Cshmat).
  pose proof (Hd (Csem_open MUTEX_SEM)). pose proof (Hd (Csem_open EMPTY_SEM)).
  pose proof (Hd (Csem_open FULL_SEM)).
  assert (Hs : strcpy (uninit env MAX_MESSAGE_LENGTH) msg
               = Some (cstr_bytes msg ++ skipn (S (strlen msg)) (uninit env MAX_MESSAGE_LENGTH))).
  { apply strcpy_Some. rewrite length_uninit, <- Hlen. eapply strlen_read_cstr; eassumption. }
  pose proof (read_strcpy _ _ _ Hs) as Hb.
  assert (E1 : (0 <? cm) = true) by (apply Z.ltb_lt; lia).
  assert (E2 : (0 <? cf) = true) by (apply Z.ltb_lt; lia).
  subst q'. unfold_run H. norm_maps H.
  steps H; now injection H.
Qed.

Lemma cstr_bytes_c_str s : cstr_bytes (c_str s) = cstr_bytes s.
Proof. unfold cstr_bytes. now rewrite c_str_idem. Qed.

Lemma run_eta {A} (x : list event * OS * result A) :
  x = (trace_of x, state_of x, result_of x).
Proof. now destruct x as [[t s] r]. Qed.

(** ** The claims *)

(** C1.  From a state without the segment and the semaphores, one
    producer run followed by one consumer run, neither hindered by a
    failing call: for every message whose characters and terminating NUL
    fit the mailbox buffer, both runs return, and the bytes the consumer
    copies out of the mailbox are those the producer stored, so that a
    consumer with echo prints the producer's message. *)
Theorem C1_consumer_reads_producer_message
    env_p env_c args_p args_c s msg :
  no_denial env_p -> no_denial env_c ->
  shm s = None ->
  sems s !! MUTEX_SEM = None -> sems s !! EMPTY_SEM = None -> sems s !! FULL_SEM = None ->
  arg_message args_p = Some msg ->
  (strlen msg < MAX_MESSAGE_LENGTH)%nat ->
  0 < queue_depth args_p <= SEM_VALUE_MAX ->
  let p := producer_shared_memory env_p args_p s in
  let c := consumer_shared_memory env_c args_c (state_of p) in
  result_of p = Ret tt /\
  result_of c = Ret tt /\
  In (EvStoreMessage (cstr_bytes msg)) (trace_of p) /\
  In (EvLoadMessage (cstr_bytes msg)) (trace_of c) /\
  (truthy (enable_echo args_c) = true -> In (EvStdout (nl (c_str msg))) (trace_of c)).
Proof.
  intros Hdp Hdc Hq Hm He Hf Ha Hlen Hdepth p c.
  assert (Hp : result_of p = Ret tt) by (eapply producer_fresh_returns; eassumption).
  pose proof (run_eta p) as Ep. rewrite Hp in Ep.
  destruct s as [q m b]. cbn [shm sems] in Hq, Hm, He, Hf.
  apply producer_returns in Ep as (msg' & buf & Ha' & Hs & _ & _ & Htr & Hshm & _ & Hmx & Hem & Hfu & _).
  rewrite Ha in Ha'. injection Ha' as <-.
  rewrite Hq in Hs. rewrite Hm in Hmx. rewrite He in Hem. rewrite Hf in Hfu.
  cbn [from_option id] in Hs, Hmx, Hem, Hfu.
  assert (Hc : result_of c = Ret tt).
  { eapply consumer_ready_returns with (q := {| message := buf; is_empty := 0 |});
      try eassumption.
    - cbn [message]. rewrite (length_strcpy _ _ _ Hs). apply repeat_length.
    - cbn [message]. eapply read_strcpy; eassumption.
    - reflexivity.
    - reflexivity. }
  pose proof (run_eta c) as Ec. rewrite Hc in Ec. unfold c in Ec at 1.
  destruct (state_of p) as [q1 m1 b1]. cbn [shm sems] in Hshm, Hmx, Hem, Hfu.
  apply consumer_returns in Ec
    as (q0 & msg' & buffer & cm & ce & cf & Hq0 & Hr & _ & _ & _ & _ & _ & _ & Htc & _).
  rewrite Hshm in Hq0. injection Hq0 as <-. cbn [message] in Hr.
  rewrite (read_strcpy _ _ _ Hs) in Hr. injection Hr as <-.
  rewrite cstr_bytes_c_str in Htc.
  split; [assumption|]. split; [assumption|].
  rewrite Htr, Htc. split; [|split].
  - apply in_or_app. left. cbn. tauto.
  - apply in_or_app. left. cbn. tauto.
  - intros Hecho. apply in_or_app. right. apply in_or_app. left.
    unfold echo_events. rewrite Hecho. left. reflexivity.
Qed.

Lemma no_denial_env_ok : no_denial env_ok.
Proof. intros c. reflexivity. Qed.

Lemma C1_witness :
  let p := producer_shared_memory env_ok (mkargs "hello" 1 0) os_fresh in
  let c := consumer_shared_memory env_ok (mkargs "" 1 1) (state_of p) in
  result_of p = Ret tt /\
  result_of c = Ret tt /\
  In (EvStoreMessage (cstr_bytes "hello")) (trace_of p) /\
  In (EvLoadMessage (cstr_bytes "hello")) (trace_of c) /\
  (truthy (enable_echo (mkargs "" 1 1)) = true ->
   In (EvStdout (nl (c_str "hello"))) (trace_of c)).
Proof.
  apply (C1_consumer_reads_producer_message env_ok env_ok
           (mkargs "hello" 1 0) (mkargs "" 1 1) os_fresh "hello").
  - exact no_denial_env_ok.
  - exact no_denial_env_ok.
  - reflexivity.
  - reflexivity.
  - reflexivity.
  - reflexivity.
  - reflexivity.
  - vm_compute. lia.
  - vm_compute. split; [reflexivity | discriminate].
Defined.

(** *** C2: the mutex brackets the mailbox accesses *)





(** *** C3: semaphore counts are set at creation only *)

Ltac quiet_call :=
  let s := fresh "s" in
  intros s; destruct s as [? ? ?]; unfold trace_of, state_of;
  cbv beta iota zeta delta
    [ftok shmget shmat sem_open sem_wait sem_post sem_close sem_unlink shmdt
     shmctl_rmid queue_strcpy queue_set_is_empty strcpy_from_queue printf_line
     printf_buffer emit exit ret fault block andthen set_shm set_sems set_sock_file];
  break_call; cbn [fst snd app];
  (split; [solve [repeat constructor] | cbv beta delta [same_sems any_state]; cbn [sems]; first [exact I | reflexivity]]).

Ltac quiet_run R_refl R_trans :=
  repeat lazymatch goal with
         | |- respects _ _ (checked _ _) =>
             apply (respects_checked _ _ R_refl R_trans); [reflexivity|]
         | |- respects _ _ (andthen _ _) =>
             apply (respects_andthen _ _ R_trans); [|intros ?]
         | |- respects _ _ _ => quiet_call
         end.

Lemma any_state_trans s1 s2 s3 : any_state s1 s2 -> any_state s2 s3 -> any_state s1 s3.
Proof. auto. Qed.

Lemma any_state_refl s : any_state s s.
Proof. exact I. Qed.

Lemma same_sems_refl s : same_sems s s.
Proof. reflexivity. Qed.

Lemma same_sems_trans s1 s2 s3 : same_sems s1 s2 -> same_sems s2 s3 -> same_sems s1 s3.
Proof. unfold same_sems. congruence. Qed.

(** The calls before the first [sem_open] open no semaphore and leave
    the semaphores as they are. *)
Lemma ftok_quiet env :
  respects same_sems (fun e => is_sem_open e = false) (checked "ftok" (ftok env)).
Proof. quiet_run same_sems_refl same_sems_trans. Qed.

Lemma shmget_quiet env k creat :
  respects same_sems (fun e => is_sem_open e = false) (checked "shmget" (shmget env k creat)).
Proof. quiet_run same_sems_refl same_sems_trans. Qed.

Lemma shmat_quiet env id :
  respects same_sems (fun e => is_sem_open e = false) (checked "shmat" (shmat env id)).
Proof. quiet_run same_sems_refl same_sems_trans. Qed.

Lemma producer_transfer_quiet args p mutex empty full :
  respects any_state (fun e => is_sem_open e = false)
    (producer_transfer args p mutex empty full).
Proof. unfold producer_transfer. quiet_run any_state_refl any_state_trans. Qed.

Lemma consumer_transfer_quiet env args id p mutex empty full :
  respects any_state (fun e => is_sem_open e = false)
    (sem_wait full ;; sem_wait mutex ;; consumer_transfer env args id p mutex empty full).
Proof. unfold consumer_transfer. quiet_run any_state_refl any_state_trans. Qed.

Lemma sem_open_returns env name creat value s :
  exists t s' h, sem_open env name creat value s = (t, s', Ret h).
Proof. unfold sem_open. break_call; eauto. Qed.

(** One statement of a run of unknown end, when the statement is a
    checked call that opens no semaphore. *)
Lemma quiet_step {A B} (m : M A) (f : A -> M B) s tr s' r e :
  respects same_sems (fun e => is_sem_open e = false) m ->
  andthen m f s = (tr, s', r) ->
  is_sem_open e = true ->
  In e tr ->
  exists s1 a t2, sems s1 = sems s /\ f a s1 = (t2, s', r) /\ In e t2.
Proof.
  intros Hq H He Hin. specialize (Hq s).
  apply andthen_inv in H as [(t1 & s1 & a & t2 & Hm & H & ->) | (r0 & Hm & _)];
    rewrite Hm in Hq; cbn in Hq; destruct Hq as [Hall Hs].
  - apply in_app_or in Hin as [Hin | Hin].
    + rewrite List.Forall_forall in Hall. apply Hall in Hin. congruence.
    + eauto 10.
  - rewrite List.Forall_forall in Hall. apply Hall in Hin. congruence.
Qed.

(** One [sem_open] of a run of unknown end. *)
Lemma open_step {B} env name creat value (f : sem_t -> M B) s tr s' r e :
  andthen (sem_open env name creat value) f s = (tr, s', r) ->
  is_sem_open e = true ->
  In e tr ->
  let c := default (value mod 2 ^ 32) (sems s !! name) in
  e = EvSemOpen name (absent (sems s !! name)) c /\
    (creat = false -> sems s !! name <> None) \/
  exists s1 h t2,
    (sems s1 = sems s \/ sems s1 = <[name := c]> (sems s)) /\
    f h s1 = (t2, s', r) /\ In e t2.
Proof.
  intros H He Hin c.
  destruct (sem_open_returns env name creat value s) as (t & s1 & h & Hm).
  apply andthen_inv in H as [(t1 & s1' & a & t2 & Hm' & H & ->) | (r0 & Hm' & Hr)].
  2:{ rewrite Hm in Hm'. injection Hm' as <- <- <-. now destruct (Hr h). }
  rewrite Hm in Hm'. injection Hm' as <- <- <-.
  apply sem_open_inv in Hm. destruct h as [n|].
  - destruct Hm as (-> & Hc & -> & ->). apply in_app_or in Hin as [[<- | []] | Hin].
    + left. split; [reflexivity | assumption].
    + right. exists (set_sems (<[name := c]> (sems s)) s), (Some name), t2.
      split; [right; reflexivity | split; assumption].
  - destruct Hm as (-> & e' & ->). apply in_app_or in Hin as [[<- | []] | Hin].
    + discriminate He.
    + right. exists s, None, t2. split; [left; reflexivity | split; assumption].
Qed.

Lemma producer_split env args :
  producer_shared_memory env args =
  (key <- checked "ftok" (ftok env) ;;
   shmid <- checked "shmget" (shmget env key true) ;;
   shared_queue <- checked "shmat" (shmat env shmid) ;;
   mutex <- sem_open env MUTEX_SEM true 1 ;;
   empty <- sem_open env EMPTY_SEM true (queue_depth args) ;;
   full <- sem_open env FULL_SEM true 0 ;;
   producer_transfer args shared_queue mutex empty full).
Proof. reflexivity. Qed.

Lemma consumer_split env args :
  consumer_shared_memory env args =
  (key <- checked "ftok" (ftok env) ;;
   shmid <- checked "shmget" (shmget env key false) ;;
   shared_queue <- checked "shmat" (shmat env shmid) ;;
   mutex <- sem_open env MUTEX_SEM false 0 ;;
   empty <- sem_open env EMPTY_SEM false 0 ;;
   full <- sem_open env FULL_SEM false 0 ;;
   sem_wait full ;; sem_wait mutex ;;
   consumer_transfer env args shmid shared_queue mutex empty full).
Proof. reflexivity. Qed.

Lemma lookup_after_open (m m1 : gmap string Z) name c n :
  m1 = m \/ m1 = <[name := c]> m -> name <> n -> m1 !! n = m !! n.
Proof. intros [-> | ->] Hne; [reflexivity | now apply lookup_insert_ne]. Qed.

(** What every [sem_open] of a run finds: the count the semaphore had
    before the run, or, for a producer's on a name that did not exist,
    the initial count. *)
Lemma sem_open_events env r args s n created v :
  0 < queue_depth args <= SEM_VALUE_MAX ->
  In (EvSemOpen n created v) (trace_of (shared_memory_run env r args s)) ->
  if created
  then r = Producer /\ sems s !! n = None /\ v = initial_count args n
  else sems s !! n = Some v.
Proof.
  intros Hdepth Hin.
  pose proof (run_eta (shared_memory_run env r args s)) as H.
  set (tr := trace_of _) in *. set (s' := state_of _) in H. set (res := result_of _) in H.
  clearbody tr s' res.
  assert (He : is_sem_open (EvSemOpen n created v) = true) by reflexivity.
  destruct r; cbn [shared_memory_run] in H.
  - rewrite producer_split in H.
    destruct (quiet_step _ _ _ _ _ _ _ (ftok_quiet env) H He Hin)
      as (s1 & a1 & t1 & E1 & H1 & Hin1).
    destruct (quiet_step _ _ _ _ _ _ _ (shmget_quiet env _ _) H1 He Hin1)
      as (s2 & a2 & t2 & E2 & H2 & Hin2).
    destruct (quiet_step _ _ _ _ _ _ _ (shmat_quiet env _) H2 He Hin2)
      as (s3 & a3 & t3 & E3 & H3 & Hin3).
    assert (E : sems s3 = sems s) by congruence. clear E1 E2 E3.
    destruct (open_step _ _ _ _ _ _ _ _ _ _ H3 He Hin3)
      as [[Heq Hc] | (s4 & mutex & t4 & E4 & H4 & Hin4)].
    { injection Heq as -> -> ->. rewrite E. destruct (sems s !! MUTEX_SEM); cbn; auto. }
    destruct (open_step _ _ _ _ _ _ _ _ _ _ H4 He Hin4)
      as [[Heq Hc] | (s5 & empty & t5 & E5 & H5 & Hin5)].
    { injection Heq as -> -> ->.
      rewrite (lookup_after_open _ _ _ _ EMPTY_SEM E4 MUTEX_ne_EMPTY).
      rewrite E, (depth_as_unsigned _ Hdepth).
      destruct (sems s !! EMPTY_SEM); cbn; auto. }
    destruct (open_step _ _ _ _ _ _ _ _ _ _ H5 He Hin5)
      as [[Heq Hc] | (s6 & full & t6 & E6 & H6 & Hin6)].
    { injection Heq as -> -> ->.
      rewrite (lookup_after_open _ _ _ _ FULL_SEM E5 EMPTY_ne_FULL).
      rewrite (lookup_after_open _ _ _ _ FULL_SEM E4 MUTEX_ne_FULL).
      rewrite E. destruct (sems s !! FULL_SEM); cbn; auto. }
    pose proof (producer_transfer_quiet args a3 mutex empty full s6) as [Hall _].
    rewrite H6 in Hall. cbn in Hall. rewrite List.Forall_forall in Hall.
    apply Hall in Hin6. discriminate Hin6.
  - rewrite consumer_split in H.
    destruct (quiet_step _ _ _ _ _ _ _ (ftok_quiet env) H He Hin)
      as (s1 & a1 & t1 & E1 & H1 & Hin1).
    destruct (quiet_step _ _ _ _ _ _ _ (shmget_quiet env _ _) H1 He Hin1)
      as (s2 & a2 & t2 & E2 & H2 & Hin2).
    destruct (quiet_step _ _ _ _ _ _ _ (shmat_quiet env _) H2 He Hin2)
      as (s3 & a3 & t3 & E3 & H3 & Hin3).
    assert (E : sems s3 = sems s) by congruence. clear E1 E2 E3.
    destruct (open_step _ _ _ _ _ _ _ _ _ _ H3 He Hin3)
      as [[Heq Hc] | (s4 & mutex & t4 & E4 & H4 & Hin4)].
    { injection Heq as -> -> ->. specialize (Hc eq_refl). rewrite E in *.
      destruct (sems s !! MUTEX_SEM); cbn; [reflexivity | congruence]. }
    destruct (open_step _ _ _ _ _ _ _ _ _ _ H4 He Hin4)
      as [[Heq Hc] | (s5 & empty & t5 & E5 & H5 & Hin5)].
    { injection Heq as -> -> ->. specialize (Hc eq_refl).
      rewrite (lookup_after_open _ _ _ _ EMPTY_SEM E4 MUTEX_ne_EMPTY) in *.
      rewrite E in *.
      destruct (sems s !! EMPTY_SEM); cbn; [reflexivity | congruence]. }
    destruct (open_step _ _ _ _ _ _ _ _ _ _ H5 He Hin5)
      as [[Heq Hc] | (s6 & full & t6 & E6 & H6 & Hin6)].
    { injection Heq as -> -> ->. specialize (Hc eq_refl).
      rewrite (lookup_after_open _ _ _ _ FULL_SEM E5 EMPTY_ne_FULL) in *.
      rewrite (lookup_after_open _ _ _ _ FULL_SEM E4 MUTEX_ne_FULL) in *.
      rewrite E in *.
      destruct (sems s !! FULL_SEM); cbn; [reflexivity | congruence]. }
    pose proof (consumer_transfer_quiet env args a2 a3 mutex empty full s6) as [Hall _].
    rewrite H6 in Hall. cbn in Hall. rewrite List.Forall_forall in Hall.
    apply Hall in Hin6. discriminate Hin6.
Qed.

(** The three names and any other, with what [String.eqb] gives. *)
Ltac name_facts n :=
  let Hm := fresh "Nm" in let He := fresh "Ne" in let Hf := fresh "Nf" in
  destruct (String.eqb_spec n MUTEX_SEM) as [->|Hm];
  [ assert (Xm : String.eqb MUTEX_SEM MUTEX_SEM = true) by reflexivity;
    assert (Xe : String.eqb MUTEX_SEM EMPTY_SEM = false) by reflexivity;
    assert (Xf : String.eqb MUTEX_SEM FULL_SEM = false) by reflexivity
  | destruct (String.eqb_spec n EMPTY_SEM) as [->|He];
    [ assert (Xm : String.eqb EMPTY_SEM MUTEX_SEM = false) by reflexivity;
      assert (Xe : String.eqb EMPTY_SEM EMPTY_SEM = true) by reflexivity;
      assert (Xf : String.eqb EMPTY_SEM FULL_SEM = false) by reflexivity
    | destruct (String.eqb_spec n FULL_SEM) as [->|Hf];
      [ assert (Xm : String.eqb FULL_SEM MUTEX_SEM = false) by reflexivity;
        assert (Xe : String.eqb FULL_SEM EMPTY_SEM = false) by reflexivity;
        assert (Xf : String.eqb FULL_SEM FULL_SEM = true) by reflexivity
      | assert (Xm : String.eqb n MUTEX_SEM = false) by (now apply String.eqb_neq);
        assert (Xe : String.eqb n EMPTY_SEM = false) by (now apply String.eqb_neq);
        assert (Xf : String.eqb n FULL_SEM = false) by (now apply String.eqb_neq) ] ] ].

Ltac name_ne :=
  first [ assumption | apply not_eq_sym; assumption | solve [auto with semnames] ].

(** The end of one path of a run: the lookups are reduced, the waits
    and posts of the trace counted, and the arithmetic left to [lia]. *)
Ltac accounted_leaf :=
  unfold count_accounted; cbn [sems];
  repeat first
    [ rewrite lookup_insert_eq
    | rewrite lookup_insert_ne by name_ne
    | rewrite lookup_delete_eq
    | rewrite lookup_delete_ne by name_ne ];
  repeat match goal with
         | E : ?m !! _ = _ |- _ => rewrite E
         end;
  repeat match goal with
         | |- context [match ?m !! ?k with _ => _ end] => destruct (m !! k)
         end;
  unfold units_moved, count, initial_count;
  cbn [List.filter is_post is_wait];
  repeat match goal with
         | X : String.eqb _ _ = _ |- _ => rewrite X
         end;
  cbn [List.filter is_post is_wait length In];
  first [ exact I | lia | solve [intuition (first [reflexivity | congruence | lia])] ].

(** In every run, whatever its end, the count of every semaphore is
    accounted for. *)
Lemma count_accounted_run env r args s n :
  0 < queue_depth args <= SEM_VALUE_MAX ->
  count_accounted r args s (state_of (shared_memory_run env r args s))
    (trace_of (shared_memory_run env r args s)) n.
Proof.
  intros Hdepth.
  pose proof (run_eta (shared_memory_run env r args s)) as H.
  set (tr := trace_of _) in *. set (s' := state_of _) in *. set (res := result_of _) in *.
  clearbody tr s' res. destruct s as [q m b].
  destruct r; cbn [shared_memory_run] in H; unfold_run H;
    rewrite ?(depth_as_unsigned _ Hdepth) in H; norm_maps H; steps H;
    injection H as <- <- <-.
  all: name_facts n; accounted_leaf.
Qed.

(** C3.  In any shared-memory run of either role, whatever its end:
    a [sem_open] that opens an existing semaphore finds the count the
    semaphore had before the run, and one that creates a semaphore is a
    producer's, on a name that did not exist, and gives it 1 (mutex), the
    configured queue depth (empty-slots) or 0 (full-slots); and in the
    state the run leaves, a semaphore that existed before the run has the
    count it had then, changed only by the units the run took with
    [sem_wait] and gave with [sem_post], unless a consumer unlinked it,
    while one that did not exist has, when a producer created it, its
    initial count changed likewise.  No open sets or resets the count of
    a semaphore that exists. *)
Theorem C3_counts_set_at_creation_only env r args s :
  0 < queue_depth args <= SEM_VALUE_MAX ->
  let run := shared_memory_run env r args s in
  (forall n created v,
     In (EvSemOpen n created v) (trace_of run) ->
     if created
     then r = Producer /\ sems s !! n = None /\ v = initial_count args n
     else sems s !! n = Some v) /\
  (forall n, count_accounted r args s (state_of run) (trace_of run) n).
Proof.
  intros Hdepth run. split.
  - intros n created v Hin. exact (sem_open_events env r args s n created v Hdepth Hin).
  - intros n. exact (count_accounted_run env r args s n Hdepth).
Qed.

(** A producer given depth 9 reopens empty-slots at count 3: the open
    reports 3, and the run, which takes one unit, leaves 2. *)
Lemma C3_witness :
  let s := set_sems (<[EMPTY_SEM := 3]> (sems os_one_message)) os_one_message in
  let run := shared_memory_run env_ok Producer (mkargs "next" 9 0) s in
  sems s !! EMPTY_SEM = Some 3 /\
  sems (state_of run) !! EMPTY_SEM = Some 2 /\
  count_accounted Producer (mkargs "next" 9 0) s (state_of run) (trace_of run) EMPTY_SEM.
Proof.
  cbv zeta.
  destruct (C3_counts_set_at_creation_only env_ok Producer (mkargs "next" 9 0)
              (set_sems (<[EMPTY_SEM := 3]> (sems os_one_message)) os_one_message))
    as [Hopen Hcount].
  - vm_compute. split; [reflexivity | discriminate].
  - split; [|split].
    + apply (Hopen EMPTY_SEM false 3). vm_compute. do 3 right. left. reflexivity.
    + vm_compute. reflexivity.
    + apply Hcount.
Defined.

(** *** C4: the consumer removes the four resources *)

(** C4.  A shared-memory consumer run that returns ends with the
    removal of the segment and the unlinking of the three semaphores, in
    that order, and leaves a state in which none of the four exists; a
    producer run from that state, on which no call fails, creates the
    segment and the three semaphores anew with counts 1, the queue depth
    and 0, and leaves them at 1, the queue depth less one, and 1. *)
Theorem C4_consumer_removes_resources env env' args args' s msg :
  result_of (consumer_shared_memory env args s) = Ret tt ->
  no_denial env' ->
  arg_message args' = Some msg ->
  (strlen msg < MAX_MESSAGE_LENGTH)%nat ->
  0 < queue_depth args' <= SEM_VALUE_MAX ->
  let c := consumer_shared_memory env args s in
  let p := producer_shared_memory env' args' (state_of c) in
  (exists pre, trace_of c =
     pre ++ [EvShmRm; EvSemUnlink MUTEX_SEM; EvSemUnlink EMPTY_SEM; EvSemUnlink FULL_SEM]) /\
  shm (state_of c) = None /\
  sems (state_of c) !! MUTEX_SEM = None /\
  sems (state_of c) !! EMPTY_SEM = None /\
  sems (state_of c) !! FULL_SEM = None /\
  result_of p = Ret tt /\
  In (EvShmget true) (trace_of p) /\
  In (EvSemOpen MUTEX_SEM true 1) (trace_of p) /\
  In (EvSemOpen EMPTY_SEM true (queue_depth args')) (trace_of p) /\
  In (EvSemOpen FULL_SEM true 0) (trace_of p) /\
  sems (state_of p) !! MUTEX_SEM = Some 1 /\
  sems (state_of p) !! EMPTY_SEM = Some (queue_depth args' - 1) /\
  sems (state_of p) !! FULL_SEM = Some 1.
Proof.
  intros Hret Hd Ha Hlen Hdepth c p.
  pose proof (run_eta (consumer_shared_memory env args s)) as Ec. rewrite Hret in Ec.
  fold c in Ec. destruct s as [q m b].
  apply consumer_returns in Ec
    as (q0 & msg0 & buf0 & cm & ce & cf & _ & _ & _ & _ & _ & _ & _ & _ & Htc
        & Hshm & _ & Hmx & Hem & Hfu & _).
  assert (Hp : result_of p = Ret tt) by (eapply producer_fresh_returns; eassumption).
  pose proof (run_eta (producer_shared_memory env' args' (state_of c))) as Ep.
  fold p in Ep. rewrite Hp in Ep. unfold p in Ep at 1.
  destruct (state_of c) as [q1 m1 b1] eqn:Es1. cbn [shm sems] in Hshm, Hmx, Hem, Hfu |- *.
  apply producer_returns in Ep
    as (msg' & buf & _ & _ & _ & _ & Htr & _ & _ & Hmx' & Hem' & Hfu' & _).
  rewrite Hshm, Hmx, Hem, Hfu in Htr. rewrite Hmx in Hmx'. rewrite Hem in Hem'.
  rewrite Hfu in Hfu'. rewrite (depth_as_unsigned _ Hdepth) in Htr, Hem'.
  cbn [from_option id absent] in Htr, Hmx', Hem', Hfu'.
  split.
  { rewrite Htc. eexists. rewrite app_assoc.
    change [post_event MUTEX_SEM (cm - 1); post_event EMPTY_SEM ce; EvShmdt;
            EvSemClose MUTEX_SEM; EvSemClose EMPTY_SEM; EvSemClose FULL_SEM;
            EvShmRm; EvSemUnlink MUTEX_SEM; EvSemUnlink EMPTY_SEM; EvSemUnlink FULL_SEM]
      with ([post_event MUTEX_SEM (cm - 1); post_event EMPTY_SEM ce; EvShmdt;
             EvSemClose MUTEX_SEM; EvSemClose EMPTY_SEM; EvSemClose FULL_SEM]
            ++ [EvShmRm; EvSemUnlink MUTEX_SEM; EvSemUnlink EMPTY_SEM; EvSemUnlink FULL_SEM]).
    rewrite app_assoc. reflexivity. }
  repeat (split; [first [assumption | reflexivity]|]).
  rewrite Htr.
  repeat (split; [apply in_or_app; left; cbn; tauto|]).
  repeat split; assumption.
Qed.

Lemma C4_witness :
  let s := state_of (producer_shared_memory env_ok (mkargs "hello" 1 0) os_fresh) in
  let c := consumer_shared_memory env_ok (mkargs "" 1 0) s in
  let p := producer_shared_memory env_ok (mkargs "again" 2 0) (state_of c) in
  (exists pre, trace_of c =
     pre ++ [EvShmRm; EvSemUnlink MUTEX_SEM; EvSemUnlink EMPTY_SEM; EvSemUnlink FULL_SEM]) /\
  shm (state_of c) = None /\
  sems (state_of c) !! MUTEX_SEM = None /\
  sems (state_of c) !! EMPTY_SEM = None /\
  sems (state_of c) !! FULL_SEM = None /\
  result_of p = Ret tt /\
  In (EvShmget true) (trace_of p) /\
  In (EvSemOpen MUTEX_SEM true 1) (trace_of p) /\
  In (EvSemOpen EMPTY_SEM true (queue_depth (mkargs "again" 2 0))) (trace_of p) /\
  In (EvSemOpen FULL_SEM true 0) (trace_of p) /\
  sems (state_of p) !! MUTEX_SEM = Some 1 /\
  sems (state_of p) !! EMPTY_SEM = Some (queue_depth (mkargs "again" 2 0) - 1) /\
  sems (state_of p) !! FULL_SEM = Some 1.
Proof.
  apply (C4_consumer_removes_resources env_ok env_ok (mkargs "" 1 0) (mkargs "again" 2 0)
           (state_of (producer_shared_memory env_ok (mkargs "hello" 1 0) os_fresh)) "again").
  - vm_compute. reflexivity.
  - exact no_denial_env_ok.
  - reflexivity.
  - vm_compute. lia.
  - vm_compute. split; [reflexivity | discriminate].
Defined.

(** *** C5: who creates the segment and the semaphores *)

(** A consumer started on a fresh system creates nothing: its [shmget]
    has no [IPC_CREAT], fails, and the process exits with status 1. *)
Lemma C5_consumer_first_creates_nothing :
  let c := consumer_shared_memory env_ok (mkargs "" 1 0) os_fresh in
  trace_of c = [EvPerror "shmget" ENOENT] /\
  state_of c = os_fresh /\
  result_of c = Exit 1.
Proof. vm_compute. repeat split. Qed.

Lemma consumer_without_segment env args s :
  shm s = None ->
  result_of (consumer_shared_memory env args s) = Exit 1 /\
  state_of (consumer_shared_memory env args s) = s /\
  exists what e, trace_of (consumer_shared_memory env args s) = [EvPerror what e].
Proof.
  intros Hq. destruct s as [q m b]. cbn [shm] in Hq. subst q.
  pose proof (run_eta (consumer_shared_memory env args {| shm := None; sems := m; sock_file := b |})) as H.
  set (tr := trace_of _) in *. set (s' := state_of _) in *. set (res := result_of _) in *.
  clearbody tr s' res. run H; injection H as <- <- <-; eauto.
Qed.

(** A producer on which no call fails gets the segment and the three
    semaphores, creating each that does not exist, before anything
    else: these are the first calls of its run, whatever its end, and
    the four exist in the state it leaves. *)
Lemma producer_creates_what_is_absent env args s :
  no_denial env ->
  0 < queue_depth args <= SEM_VALUE_MAX ->
  let p := producer_shared_memory env args s in
  (exists rest, trace_of p = opening_calls args s ++ rest) /\
  segment_kept_or_written args s (state_of p) /\
  is_Some (sems (state_of p) !! MUTEX_SEM) /\
  is_Some (sems (state_of p) !! EMPTY_SEM) /\
  is_Some (sems (state_of p) !! FULL_SEM).
Proof.
  intros Hd Hdepth p. subst p.
  pose proof (run_eta (producer_shared_memory env args s)) as H.
  set (tr := trace_of _) in *. set (s' := state_of _) in *. set (res := result_of _) in *.
  clearbody tr s' res. destruct s as [q m b].
  unfold opening_calls, segment_kept_or_written. cbn [shm sems].
  pose proof (Hd Cftok) as D1. pose proof (Hd Cshmget) as D2. pose proof (Hd Cshmat) as D3.
  pose proof (Hd (Csem_open MUTEX_SEM)) as D4. pose proof (Hd (Csem_open EMPTY_SEM)) as D5.
  pose proof (Hd (Csem_open FULL_SEM)) as D6.
  assert (Hle : (queue_depth args <=? SEM_VALUE_MAX) = true) by (apply Z.leb_le; lia).
  unfold_run H. rewrite (depth_as_unsigned _ Hdepth) in H. norm_maps H.
  steps H; injection H as <- <- <-;
    repeat match goal with
           | E : m !! _ = _ |- _ => rewrite E
           end;
    cbn [absent from_option id shm sems];
    (split; [eexists; reflexivity|]);
    (split;
     [ eexists; split; [reflexivity|]; cbn [message];
       first [ left; reflexivity | right; eexists; split; [reflexivity | eassumption] ]
     | repeat split; norm_goal; eauto ]).
Qed.

(** C5 (amended).  The segment and the three semaphores are created by
    the producer only.  A producer on which no call fails begins by
    getting the four, creating each that does not exist and opening,
    without creating, each that does: all four exist in the state it
    leaves, whatever the end of its run, the segment with the buffer it
    had (zero bytes when created), as it was or with the message copied
    into it, and each semaphore with a count that is accounted for by
    the count it had, or was created with, and the waits and posts of
    the run.  A consumer run, whatever its end, creates none: no call
    of its run creates, the state it leaves has no resource that did not
    exist before, and started without the segment it exits with status
    1 and leaves the state as it was. *)
Theorem C5_only_the_producer_creates env env' args args' s :
  no_denial env ->
  0 < queue_depth args <= SEM_VALUE_MAX ->
  let p := producer_shared_memory env args s in
  let c := consumer_shared_memory env' args' s in
  ((exists rest, trace_of p = opening_calls args s ++ rest) /\
   segment_kept_or_written args s (state_of p) /\
   is_Some (sems (state_of p) !! MUTEX_SEM) /\
   is_Some (sems (state_of p) !! EMPTY_SEM) /\
   is_Some (sems (state_of p) !! FULL_SEM) /\
   (forall n, count_accounted Producer args s (state_of p) (trace_of p) n)) /\
  (Forall (fun e => creation e = false) (trace_of c) /\
   no_new_resource s (state_of c) /\
   (shm s = None -> result_of c = Exit 1 /\ state_of c = s)).
Proof.
  intros Hd Hdepth p c. split.
  - destruct (producer_creates_what_is_absent env args s Hd Hdepth)
      as (Ht & Hq & Hm & He & Hf).
    repeat (split; [assumption|]).
    intros n. exact (count_accounted_run env Producer args s n Hdepth).
  - destruct (consumer_never_creates env' args' s) as [Hall Hnew].
    split; [exact Hall|]. split; [exact Hnew|].
    intros Hq. destruct (consumer_without_segment env' args' s Hq) as (? & ? & _). auto.
Qed.

(** From a state with none of the four, the producer creates them all
    and the consumer none. *)
Lemma C5_witness :
  let p := producer_shared_memory env_ok (mkargs "hello" 1 0) os_fresh in
  let c := consumer_shared_memory env_ok (mkargs "unused" 1 0) os_fresh in
  ((exists rest, trace_of p = opening_calls (mkargs "hello" 1 0) os_fresh ++ rest) /\
   segment_kept_or_written (mkargs "hello" 1 0) os_fresh (state_of p) /\
   is_Some (sems (state_of p) !! MUTEX_SEM) /\
   is_Some (sems (state_of p) !! EMPTY_SEM) /\
   is_Some (sems (state_of p) !! FULL_SEM) /\
   (forall n, count_accounted Producer (mkargs "hello" 1 0) os_fresh (state_of p)
                (trace_of p) n)) /\
  (Forall (fun e => creation e = false) (trace_of c) /\
   no_new_resource os_fresh (state_of c) /\
   (shm os_fresh = None -> result_of c = Exit 1 /\ state_of c = os_fresh)).
Proof.
  apply (C5_only_the_producer_creates env_ok env_ok (mkargs "hello" 1 0)
           (mkargs "unused" 1 0) os_fresh).
  - exact no_denial_env_ok.
  - vm_compute. split; [reflexivity | discriminate].
Defined.

(** *** C6 and C7: failures of the semaphore calls *)

(** With the segment present and one of the semaphores missing, a
    consumer on which no other call fails never reaches an [exit]: it
    stays suspended or leaves defined behaviour. *)
Lemma consumer_missing_semaphore env args s q :
  no_denial env ->
  shm s = Some q ->
  sems s !! MUTEX_SEM = None \/ sems s !! EMPTY_SEM = None \/ sems s !! FULL_SEM = None ->
  result_of (consumer_shared_memory env args s) = Fault \/
  result_of (consumer_shared_memory env args s) = Block.
Proof.
  intros Hd Hq Hmiss. destruct s as [q' m b]. cbn [shm sems] in Hq, Hmiss. subst q'.
  pose proof (run_eta (consumer_shared_memory env args
                         {| shm := Some q; sems := m; sock_file := b |})) as H.
  set (tr := trace_of _) in *. set (s' := state_of _) in *. set (res := result_of _) in *.
  clearbody tr s' res.
  pose proof (Hd Cftok). pose proof (Hd Cshmget). pose proof (Hd Cshmat).
  pose proof (Hd (Csem_open MUTEX_SEM)). pose proof (Hd (Csem_open EMPTY_SEM)).
  pose proof (Hd (Csem_open FULL_SEM)).
  run H; injection H as <- <- <-; auto;
    destruct Hmiss as [Hm | [Hm | Hm]]; congruence.
Qed.

(** C6 (the code at the failing input).  Started with the segment present
    and the three semaphores absent, the consumer gets [SEM_FAILED] from
    each [sem_open], tests none of them, reports nothing and calls
    [sem_wait] on [SEM_FAILED]: the run does not end in [exit(1)]. *)
Theorem C6_consumer_without_semaphores :
  let c := consumer_shared_memory env_ok (mkargs "" 1 1) os_segment_only in
  trace_of c = [EvShmget false; EvShmat;
                EvSemOpenFailed MUTEX_SEM ENOENT;
                EvSemOpenFailed EMPTY_SEM ENOENT;
                EvSemOpenFailed FULL_SEM ENOENT] /\
  result_of c = Fault /\
  state_of c = os_segment_only.
Proof. vm_compute. repeat split. Qed.

(** C7 (the code at two failing inputs).  A producer whose [sem_post] on
    full-slots fails ends with status 0, and one whose [sem_open] of
    full-slots fails stores the message and then calls [sem_post] on
    [SEM_FAILED]; neither reports an error or ends in [exit(1)]. *)
Theorem C7_semaphore_errors_unreported :
  let opts := [Opt_p; Opt_s; Opt_m "hello"; Opt_q "1"] in
  let a := main env_ok "prog" opts os_full_saturated in
  let b := main env_no_full "prog" opts os_fresh in
  (result_of a = Ret 0 /\
   In (EvSemPostFailed FULL_SEM) (trace_of a) /\
   List.filter is_report (trace_of a) = []) /\
  (result_of b = Fault /\
   In (EvSemOpenFailed FULL_SEM EOTHER) (trace_of b) /\
   In (EvStoreMessage (cstr_bytes "hello")) (trace_of b) /\
   List.filter is_report (trace_of b) = []).
Proof. vm_compute. repeat split; auto 20. Qed.

(** *** C8 and C10: messages at or over the buffer size *)

(** No message of [MAX_MESSAGE_LENGTH] characters or more lets the
    shared-memory producer return: [strcpy] has no bound to stop at. *)
Lemma producer_overlong_never_returns env args s msg :
  arg_message args = Some msg ->
  (forall q, shm s = Some q -> length (message q) = MAX_MESSAGE_LENGTH) ->
  (MAX_MESSAGE_LENGTH <= strlen msg)%nat ->
  result_of (producer_shared_memory env args s) <> Ret tt.
Proof.
  intros Ha Hlen Hlong Hret.
  pose proof (run_eta (producer_shared_memory env args s)) as E. rewrite Hret in E.
  destruct s as [q m b].
  apply producer_returns in E as (msg' & buf & Ha' & Hs & _).
  rewrite Ha in Ha'. injection Ha' as <-.
  apply strcpy_inv in Hs as [Hlt _].
  destruct q as [q0|]; cbn [from_option id] in Hlt.
  - rewrite (Hlen q0 eq_refl) in Hlt. lia.
  - cbn [message queue_zero] in Hlt. rewrite repeat_length in Hlt. lia.
Qed.

(** C8 (the code at the failing input).  A message of 1025 characters is
    not truncated by either transport.  The shared-memory producer's
    [strcpy] would store 1026 bytes in the 1024-byte mailbox buffer: the
    run leaves defined behaviour with the mutex held and the mailbox as
    it was.  The socket consumer receives the first 1024 bytes and then
    stores the terminator one past the end of its buffer. *)
Theorem C8_overlong_message_not_truncated :
  let msg := long_message 1025 in
  let p := producer_shared_memory env_ok (mkargs msg 1 0) os_fresh in
  let c := consumer_socket (env_peer msg) (mkargs "" 1 1) os_fresh in
  length (cstr_bytes msg) = 1026%nat /\
  strcpy (message queue_zero) msg = None /\
  result_of p = Fault /\
  shm (state_of p) = Some queue_zero /\
  sems (state_of p) !! MUTEX_SEM = Some 0 /\
  trace_of c = [EvRecv 1024] /\
  result_of c = Fault.
Proof. vm_compute. repeat split. Qed.

Lemma store_char_fault buffer i c s :
  (length buffer <= i)%nat -> result_of (store_char buffer i c s) = Fault.
Proof.
  intros H. unfold store_char, write_at. cbn [length].
  destruct (Nat.leb_spec (i + 1) (length buffer)); [lia | reflexivity].
Qed.

Lemma store_char_ok buffer i c s :
  (i < length buffer)%nat -> exists buffer', result_of (store_char buffer i c s) = Ret buffer'.
Proof.
  intros H. unfold store_char, write_at. cbn [length].
  destruct (Nat.leb_spec (i + 1) (length buffer)); [|lia]. eexists. reflexivity.
Qed.

(** Whenever the peer sends [MAX_MESSAGE_LENGTH] bytes or more, the
    socket consumer stores the terminator outside its buffer. *)
Lemma consumer_socket_full_buffer env args s data :
  no_denial env ->
  peer env = Some data ->
  (MAX_MESSAGE_LENGTH <= length data)%nat ->
  result_of (consumer_socket env args s) = Fault.
Proof.
  intros Hd Hp Hlen. destruct s as [q m b].
  pose proof (run_eta (consumer_socket env args {| shm := q; sems := m; sock_file := b |})) as H.
  set (tr := trace_of _) in *. set (s' := state_of _) in *. set (res := result_of _) in *.
  clearbody tr s' res.
  pose proof (Hd Csocket). pose proof (Hd Cbind). pose proof (Hd Clisten).
  pose proof (Hd Caccept). pose proof (Hd Crecv).
  assert (Hgot : length (firstn (length (uninit env MAX_MESSAGE_LENGTH)) data)
                 = MAX_MESSAGE_LENGTH).
  { rewrite length_uninit, length_firstn. lia. }
  assert (Hw : write_at 0 (firstn (length (uninit env MAX_MESSAGE_LENGTH)) data)
                 (uninit env MAX_MESSAGE_LENGTH)
               = Some (firstn (length (uninit env MAX_MESSAGE_LENGTH)) data)).
  { unfold write_at. rewrite Hgot, length_uninit. cbn [Nat.add firstn].
    rewrite Nat.leb_refl. rewrite skipn_all2 by (rewrite length_uninit; lia).
    now rewrite app_nil_r. }
  assert (Hs : write_at (length (firstn (length (uninit env MAX_MESSAGE_LENGTH)) data)) [NUL]
                 (firstn (length (uninit env MAX_MESSAGE_LENGTH)) data) = None).
  { unfold write_at. rewrite Hgot. cbn [length].
    destruct (Nat.leb_spec (MAX_MESSAGE_LENGTH + 1) MAX_MESSAGE_LENGTH); [lia | reflexivity]. }
  unfold_run H. rewrite H1 in H. cbn [orb] in H.
  steps H. injection H as <- <- <-. reflexivity.
Qed.

(** C10 (the code at the failing input).  [recv] is given the whole size
    of the buffer, 1024; when it returns 1024 the terminator is stored
    at index 1024 of an array whose last index is 1023. *)
Theorem C10_terminator_past_the_end :
  let buffer := uninit env_ok MAX_MESSAGE_LENGTH in
  let c := consumer_socket (env_peer (long_message 1024)) (mkargs "" 1 1) os_fresh in
  length buffer = 1024%nat /\
  write_at 1024 [NUL] buffer = None /\
  result_of (store_char buffer 1024 NUL os_fresh) = Fault /\
  trace_of c = [EvRecv 1024] /\
  result_of c = Fault.
Proof. vm_compute. repeat split. Qed.

(** *** C9: command lines that are refused *)

Lemma option_loop_spec argv0 opts args s :
  option_loop argv0 opts args s =
  match first_unknown opts with
  | Some optopt =>
      ([EvStderr (getopt_error argv0 optopt); EvStderr (usage argv0)], s, Exit 1)
  | None => ([], s, Ret (scan opts args))
  end.
Proof.
  revert args. induction opts as [|o opts IH]; intros args; [reflexivity|].
  destruct o; cbn [option_loop first_unknown scan]; try apply IH.
  reflexivity.
Qed.

Lemma first_unknown_exists opts :
  existsb is_unknown opts
  = match first_unknown opts with Some _ => true | None => false end.
Proof.
  induction opts as [|o opts IH]; [reflexivity|].
  destruct o; cbn [existsb is_unknown first_unknown orb]; auto.
Qed.

Lemma scan_is_producer opts args :
  is_producer (scan opts args) = if existsb is_p opts then 1 else is_producer args.
Proof.
  revert args. induction opts as [|o opts IH]; intros args; [reflexivity|].
  destruct o; cbn [scan existsb is_p orb]; rewrite IH; cbn; try reflexivity.
  now destruct (existsb is_p opts).
Qed.

Lemma scan_is_consumer opts args :
  is_consumer (scan opts args) = if existsb is_c opts then 1 else is_consumer args.
Proof.
  revert args. induction opts as [|o opts IH]; intros args; [reflexivity|].
  destruct o; cbn [scan existsb is_c orb]; rewrite IH; cbn; try reflexivity.
  now destruct (existsb is_c opts).
Qed.

Lemma scan_use_socket opts args :
  use_socket (scan opts args) = if existsb is_u opts then 1 else use_socket args.
Proof.
  revert args. induction opts as [|o opts IH]; intros args; [reflexivity|].
  destruct o; cbn [scan existsb is_u orb]; rewrite IH; cbn; try reflexivity.
  now destruct (existsb is_u opts).
Qed.

Lemma scan_use_shared_memory opts args :
  use_shared_memory (scan opts args)
  = if existsb is_s opts then 1 else use_shared_memory args.
Proof.
  revert args. induction opts as [|o opts IH]; intros args; [reflexivity|].
  destruct o; cbn [scan existsb is_s orb]; rewrite IH; cbn; try reflexivity.
  now destruct (existsb is_s opts).
Qed.

Lemma scan_message opts args :
  arg_message (scan opts args) = last_m opts (arg_message args).
Proof.
  revert args. induction opts as [|o opts IH]; intros args; [reflexivity|].
  destruct o; cbn [scan last_m]; rewrite IH; reflexivity.
Qed.

Lemma last_q_Some opts a : exists b, last_q opts (Some a) = Some b.
Proof.
  revert a. induction opts as [|o opts IH]; intros a; [now exists a|].
  destruct o; cbn [last_q]; auto.
Qed.

Lemma scan_queue_depth_acc opts args acc :
  match acc with Some a => atoi a = queue_depth args | None => True end ->
  queue_depth (scan opts args)
  = match last_q opts acc with Some a => atoi a | None => queue_depth args end.
Proof.
  revert args acc. induction opts as [|o opts IH]; intros args acc Hacc.
  - cbn. destruct acc; auto.
  - destruct o; cbn [scan last_q]; try (rewrite (IH _ acc); [reflexivity | exact Hacc]).
    rewrite (IH _ (Some optarg)); [|reflexivity].
    destruct (last_q_Some opts optarg) as [b ->]. reflexivity.
Qed.

Lemma scan_queue_depth opts args :
  queue_depth (scan opts args)
  = match last_q opts None with Some a => atoi a | None => queue_depth args end.
Proof. now apply scan_queue_depth_acc. Qed.

(** C9 (amended).  For every command line with an option the program
    does not know, with not exactly one of producer and consumer, with
    not exactly one of socket and shared memory, without a message, or
    without a positive queue depth, [main] writes its message to the
    standard error stream, after the line [getopt] has written there for
    an option it does not accept, and exits with status 1, the state
    untouched: nothing else is done.  An empty message text is not
    among these. *)
Theorem C9_violations_refused env argv0 opts s :
  cli_violation opts = true ->
  exists msg,
    main env argv0 opts s
    = (map EvStderr (getopt_lines argv0 opts ++ [msg]), s, Exit 1).
Proof.
  intros Hv. unfold cli_violation in Hv. rewrite first_unknown_exists in Hv.
  unfold getopt_lines.
  pose proof (run_eta (main env argv0 opts s)) as H.
  set (tr := trace_of _) in H. set (s' := state_of _) in H. set (res := result_of _) in H.
  clearbody tr s' res. rewrite H.
  cbv beta iota zeta delta [main parse_arguments andthen fprintf_stderr emit exit ret app] in H.
  rewrite option_loop_spec in H.
  rewrite ?scan_message, ?scan_queue_depth, ?scan_is_producer, ?scan_is_consumer,
    ?scan_use_socket, ?scan_use_shared_memory in H.
  cbn [arg_message queue_depth is_producer is_consumer use_socket use_shared_memory
       args_zero] in H.
  destruct (first_unknown opts) as [optopt|]; cbv beta iota in H;
    [injection H as <- <- <-; eauto|].
  step H; [|injection H as <- <- <-; eauto].
  step H; [injection H as <- <- <-; eauto|].
  step H; [injection H as <- <- <-; eauto|].
  step H; [injection H as <- <- <-; eauto|].
  step H; [injection H as <- <- <-; eauto|].
  exfalso. clear H.
  rewrite scan_message in E. rewrite scan_queue_depth in E0.
  rewrite scan_is_producer, scan_is_consumer in E1.
  rewrite scan_use_socket, scan_use_shared_memory in E2, E3.
  cbn [arg_message queue_depth is_producer is_consumer use_socket use_shared_memory
       args_zero] in *.
  rewrite E in Hv.
  destruct (last_q opts None) as [a|]; [rewrite E0 in Hv; clear E0 | discriminate E0].
  destruct (existsb is_p opts), (existsb is_c opts), (existsb is_u opts),
    (existsb is_s opts); cbv in Hv, E1, E2, E3; congruence.
Qed.

Lemma C9_witness :
  exists msg,
    main env_ok "prog" [Opt_p; Opt_c; Opt_unknown "x"; Opt_m "hello"; Opt_q "1"; Opt_s] os_fresh
    = (map EvStderr
         (getopt_lines "prog" [Opt_p; Opt_c; Opt_unknown "x"; Opt_m "hello"; Opt_q "1"; Opt_s]
          ++ [msg]),
       os_fresh, Exit 1).
Proof.
  apply (C9_violations_refused env_ok "prog"
           [Opt_p; Opt_c; Opt_unknown "x"; Opt_m "hello"; Opt_q "1"; Opt_s] os_fresh).
  vm_compute. reflexivity.
Defined.

(** The claim as written fails: an empty message text is accepted, and
    the transfer takes place. *)
Lemma C9_empty_message_accepted :
  let r := main env_ok "prog" [Opt_p; Opt_s; Opt_m ""; Opt_q "1"] os_fresh in
  result_of r = Ret 0 /\
  trace_of r = [EvShmget true; EvShmat;
                EvSemOpen MUTEX_SEM true 1; EvSemOpen EMPTY_SEM true 1;
                EvSemOpen FULL_SEM true 0;
                EvSemWait EMPTY_SEM; EvSemWait MUTEX_SEM;
                EvStoreMessage [NUL]; EvStoreFlag 0;
                EvSemPost MUTEX_SEM; EvSemPost FULL_SEM; EvShmdt;
                EvSemClose MUTEX_SEM; EvSemClose EMPTY_SEM; EvSemClose FULL_SEM].
Proof. vm_compute. split; reflexivity. Qed.

(** ** Further properties of the code *)

(** *** The command line *)

Lemma scan_enable_echo opts args :
  enable_echo (scan opts args) = if existsb is_e opts then 1 else enable_echo args.
Proof.
  revert args. induction opts as [|o opts IH]; intros args; [reflexivity|].
  destruct o; cbn [scan existsb is_e orb]; rewrite IH; cbn; try reflexivity.
  now destruct (existsb is_e opts).
Qed.

Lemma scan_args_of opts : scan opts args_zero = args_of opts.
Proof.
  pose proof (scan_is_producer opts args_zero) as H1.
  pose proof (scan_is_consumer opts args_zero) as H2.
  pose proof (scan_message opts args_zero) as H3.
  pose proof (scan_queue_depth opts args_zero) as H4.
  pose proof (scan_use_socket opts args_zero) as H5.
  pose proof (scan_use_shared_memory opts args_zero) as H6.
  pose proof (scan_enable_echo opts args_zero) as H7.
  destruct (scan opts args_zero). cbn in H1, H2, H3, H4, H5, H6, H7. subst.
  reflexivity.
Qed.

Lemma to_int_range v : - 2 ^ 31 <= to_int v <= SEM_VALUE_MAX.
Proof.
  unfold to_int, SEM_VALUE_MAX.
  pose proof (Z.mod_pos_bound (v + 2 ^ 31) (2 ^ 32) ltac:(lia)). lia.
Qed.

Lemma truthy_flag b : truthy (flag b) = b.
Proof. now destruct b. Qed.

Lemma lxor_flag a b : Z.lxor (flag a) (flag b) = flag (xorb a b).
Proof. now destruct a, b. Qed.

(** What [main] does with a command line: the message it refuses it
    with, or the transfer it runs. *)
Lemma main_cases env argv0 opts s :
  main env argv0 opts s =
  if cli_violation opts
  then (map EvStderr (getopt_lines argv0 opts ++ [diagnostic argv0 opts]), s, Exit 1)
  else andthen (transfer env (selected_transport opts) (selected_role opts) (args_of opts))
         (fun _ => ret 0) s.
Proof.
  unfold main, parse_arguments, cli_violation, diagnostic, getopt_lines.
  unfold andthen at 1 2. rewrite option_loop_spec, first_unknown_exists.
  destruct (first_unknown opts) as [optopt|]; [reflexivity|].
  cbn [orb]. rewrite scan_args_of.
  cbv beta iota. cbn [arg_message queue_depth args_of].
  destruct (last_m opts None) as [msg|]; [|rewrite orb_true_r; reflexivity].
  destruct (last_q opts None) as [a|];
    [|cbn; rewrite orb_true_r; reflexivity].
  rewrite orb_false_r.
  destruct (atoi a <=? 0); [rewrite orb_true_r; reflexivity|].
  rewrite orb_false_r. cbn [fprintf_stderr exit ret emit app].
  unfold selected_transport, selected_role.
  cbn [is_producer is_consumer use_socket use_shared_memory args_of].
  rewrite lxor_flag, !truthy_flag.
  destruct (existsb is_p opts), (existsb is_c opts), (existsb is_u opts),
    (existsb is_s opts); cbn [xorb negb andb orb Bool.eqb]; try reflexivity.
  all: unfold andthen, transfer;
    match goal with
    | |- context [match ?x with _ => _ end] => destruct x as [[? ?] [| | |]]
    end; reflexivity.
Qed.

(** X1.  A command line that breaks none of the rules is run: [main]
    does what the transfer function selected by [-u]/[-s] and [-p]/[-c]
    does on the parsed arguments (the last [-m] and [-q] count), and
    returns 0 when that function returns. *)
Theorem main_runs_selected_transfer env argv0 opts s :
  cli_violation opts = false ->
  main env argv0 opts s =
  andthen (transfer env (selected_transport opts) (selected_role opts) (args_of opts))
    (fun _ => ret 0) s.
Proof. intros H. rewrite main_cases, H. reflexivity. Qed.

Lemma main_runs_selected_transfer_witness :
  main env_ok "prog" [Opt_p; Opt_m "old"; Opt_q "7"; Opt_u; Opt_m "new"] os_fresh =
  andthen (producer_socket env_ok
             {| is_producer := 1; is_consumer := 0; arg_message := Some "new";
                queue_depth := 7; use_socket := 1; use_shared_memory := 0;
                enable_echo := 0 |})
    (fun _ => ret 0) os_fresh.
Proof.
  apply (main_runs_selected_transfer env_ok "prog"
           [Opt_p; Opt_m "old"; Opt_q "7"; Opt_u; Opt_m "new"] os_fresh).
  vm_compute. reflexivity.
Defined.

(** X2.  A command line that breaks a rule is refused with the
    program's message on the standard error stream, chosen in the order
    of the checks: the usage line for an option [getopt] does not accept
    (which comes after the line [getopt] itself writes), then the
    missing message, the queue depth, the role, and the transport.
    Nothing else is written or done, and the status is 1. *)
Theorem main_refuses_with_diagnostic env argv0 opts s :
  cli_violation opts = true ->
  main env argv0 opts s
  = (map EvStderr (getopt_lines argv0 opts ++ [diagnostic argv0 opts]), s, Exit 1).
Proof. intros H. rewrite main_cases, H. reflexivity. Qed.

Lemma main_refuses_with_diagnostic_witness :
  main env_ok "prog" [Opt_p; Opt_c; Opt_unknown "m"; Opt_s] os_fresh
  = (map EvStderr
       (getopt_lines "prog" [Opt_p; Opt_c; Opt_unknown "m"; Opt_s]
        ++ [diagnostic "prog" [Opt_p; Opt_c; Opt_unknown "m"; Opt_s]]),
     os_fresh, Exit 1).
Proof.
  apply (main_refuses_with_diagnostic env_ok "prog"
           [Opt_p; Opt_c; Opt_unknown "m"; Opt_s] os_fresh).
  vm_compute. reflexivity.
Defined.

(** *** Properties of every run *)

Lemma andthen_ret_0 {A} (m : M A) s :
  trace_of (andthen m (fun _ => ret 0) s) = trace_of (m s) /\
  state_of (andthen m (fun _ => ret 0) s) = state_of (m s) /\
  result_of (andthen m (fun _ => ret 0) s)
  = match result_of (m s) with
    | Ret _ => Ret 0 | Exit c => Exit c | Block => Block | Fault => Fault
    end.
Proof.
  unfold andthen. destruct (m s) as [[t s1] [a| | |]]; cbn; rewrite ?app_nil_r; auto.
Qed.

(** The run of a transfer in [H], by cases on everything it depends on. *)
Ltac all_runs t r s H :=
  match goal with
  | |- context [transfer ?e t r ?a s] => pose proof (run_eta (transfer e t r a s)) as H
  end;
  set (tr := trace_of _) in *; set (s' := state_of _) in *; set (res := result_of _) in *;
  clearbody tr s' res; destruct s as [q m b];
  destruct t, r; cbn [transfer] in H; run H; injection H as <- <- <-.

Lemma transfer_status env t r args s :
  match result_of (transfer env t r args s) with
  | Exit c => c = 1 /\ ends_with_report (trace_of (transfer env t r args s)) = true
  | _ => True
  end.
Proof. all_runs t r s H; first [exact I | split; reflexivity]. Qed.

(** X3.  The status of the process is 0 or 1, whatever the command
    line, the state and the failing calls: [main] returns 0 or calls
    [exit(1)], and every [exit(1)] comes right after a message on the
    standard error stream. *)
Theorem main_status_and_diagnostics env argv0 opts s :
  status_ok (main env argv0 opts s) = true.
Proof.
  rewrite main_cases. destruct (cli_violation opts).
  { unfold getopt_lines. destruct (first_unknown opts); reflexivity. }
  unfold status_ok.
  destruct (andthen_ret_0
              (transfer env (selected_transport opts) (selected_role opts) (args_of opts)) s)
    as (-> & _ & ->).
  pose proof (transfer_status env (selected_transport opts) (selected_role opts)
                (args_of opts) s) as H.
  destruct (result_of (transfer _ _ _ _ _)); try reflexivity.
  destruct H as [-> ->]. reflexivity.
Qed.

Lemma transfer_silent env t r args s :
  truthy (enable_echo args) = false ->
  existsb is_stdout (trace_of (transfer env t r args s)) = false.
Proof. intros He. all_runs t r s H; reflexivity. Qed.

(** X4.  Without [-e] the program writes nothing to standard output,
    whatever the role, the transport and the end of the run. *)
Theorem no_echo_no_output env argv0 opts s :
  existsb is_e opts = false ->
  existsb is_stdout (trace_of (main env argv0 opts s)) = false.
Proof.
  intros He. rewrite main_cases. destruct (cli_violation opts).
  { unfold getopt_lines. destruct (first_unknown opts); reflexivity. }
  destruct (andthen_ret_0
              (transfer env (selected_transport opts) (selected_role opts) (args_of opts)) s)
    as (-> & _ & _).
  apply transfer_silent. cbn [enable_echo args_of]. now rewrite He.
Qed.

Lemma no_echo_no_output_witness :
  existsb is_stdout
    (trace_of (main env_ok "prog" [Opt_p; Opt_s; Opt_m "hello"; Opt_q "1"] os_fresh))
  = false.
Proof.
  apply (no_echo_no_output env_ok "prog" [Opt_p; Opt_s; Opt_m "hello"; Opt_q "1"] os_fresh).
  reflexivity.
Defined.

(** X5.  The transports keep to their own resources: a socket run
    leaves the shared-memory segment and every semaphore as they were,
    and a shared-memory run leaves the socket file as it was, whatever
    the end of the run. *)
Theorem transports_do_not_interfere env t r args s :
  foreign_part_kept t s (state_of (transfer env t r args s)).
Proof. all_runs t r s H; cbn; auto. Qed.

(** *** What a producer leaves in place *)

(** X7.  A producer run removes nothing, however it ends: the segment
    and every semaphore that existed before it exist after it. *)
Theorem producer_removes_nothing env args s :
  resources_kept s (state_of (producer_shared_memory env args s)).
Proof.
  pose proof (run_eta (producer_shared_memory env args s)) as H.
  set (tr := trace_of _) in *. set (s' := state_of _) in *. set (res := result_of _) in *.
  clearbody tr s' res. destruct s as [q m b].
  run H; injection H as <- <- <-; (split; cbn [shm sems]; [congruence|]);
    intros n Hn; repeat (apply lookup_insert_None in Hn as [Hn _]); exact Hn.
Qed.

(** *** Waiting *)

Lemma blocks_without_units env r args s q cm ce cf :
  no_denial env ->
  resources_at s q cm ce cf ->
  match r with Producer => ce | Consumer => cf end <= 0 ->
  shared_memory_run env r args s
  = ([EvShmget false; EvShmat; EvSemOpen MUTEX_SEM false cm;
      EvSemOpen EMPTY_SEM false ce; EvSemOpen FULL_SEM false cf], s, Block).
Proof.
  intros Hd (Hq & Hm & He & Hf) Hle. destruct s as [q' m b]. cbn [shm sems] in Hq, Hm, He, Hf.
  pose proof (Hd Cftok). pose proof (Hd Cshmget). pose proof (Hd Cshmat).
  pose proof (Hd (Csem_open MUTEX_SEM)). pose proof (Hd (Csem_open EMPTY_SEM)).
  pose proof (Hd (Csem_open FULL_SEM)).
  subst q'.
  destruct r; cbn [shared_memory_run].
  - assert (E : (0 <? ce) = false) by (apply Z.ltb_ge; lia).
    destruct (producer_shared_memory env args _) as [[tr s1] res] eqn:Hrun.
    unfold_run Hrun. norm_maps Hrun. steps Hrun. now injection Hrun as <- <- <-.
  - assert (E : (0 <? cf) = false) by (apply Z.ltb_ge; lia).
    destruct (consumer_shared_memory env args _) as [[tr s1] res] eqn:Hrun.
    unfold_run Hrun. norm_maps Hrun. steps Hrun. now injection Hrun as <- <- <-.
Qed.

(** X8.  With the segment and the semaphores in place and no unit in
    the semaphore it waits for (empty-slots for a producer, full-slots
    for a consumer), a run that no call fails on opens its resources and
    then waits: it does not return, and it leaves the state, the mailbox
    included, as it found it. *)
Theorem waits_without_units env r args s q cm ce cf :
  no_denial env ->
  resources_at s q cm ce cf ->
  match r with Producer => ce | Consumer => cf end <= 0 ->
  shared_memory_run env r args s
  = ([EvShmget false; EvShmat; EvSemOpen MUTEX_SEM false cm;
      EvSemOpen EMPTY_SEM false ce; EvSemOpen FULL_SEM false cf], s, Block).
Proof. apply blocks_without_units. Qed.

Lemma waits_without_units_witness :
  shared_memory_run env_ok Consumer (mkargs "unused" 1 1)
    (set_sems (<[FULL_SEM := 0]> (sems os_one_message)) os_one_message)
  = ([EvShmget false; EvShmat; EvSemOpen MUTEX_SEM false 1;
      EvSemOpen EMPTY_SEM false 0; EvSemOpen FULL_SEM false 0],
     set_sems (<[FULL_SEM := 0]> (sems os_one_message)) os_one_message, Block).
Proof.
  apply (waits_without_units env_ok Consumer (mkargs "unused" 1 1)
           (set_sems (<[FULL_SEM := 0]> (sems os_one_message)) os_one_message)
           (queue_with "hello") 1 0 0).
  - exact no_denial_env_ok.
  - repeat split; vm_compute; reflexivity.
  - lia.
Defined.

(** *** Several producers *)

Lemma producer_ready_returns env args s q msg cm ce cf :
  no_denial env ->
  resources_at s q cm ce cf ->
  length (message q) = MAX_MESSAGE_LENGTH ->
  arg_message args = Some msg ->
  (strlen msg < MAX_MESSAGE_LENGTH)%nat ->
  0 < cm -> 0 < ce ->
  result_of (producer_shared_memory env args s) = Ret tt.
Proof.
  intros Hd (Hq & Hm & He & Hf) Hlen Ha Hfit Hcm Hce.
  destruct s as [q' m b]. cbn [shm sems] in Hq, Hm, He, Hf.
  destruct (producer_shared_memory env args _) as [[tr s1] r] eqn:H.
  cbn [result_of snd].
  pose proof (Hd Cftok). pose proof (Hd Cshmget). pose proof (Hd Cshmat).
  pose proof (Hd (Csem_open MUTEX_SEM)). pose proof (Hd (Csem_open EMPTY_SEM)).
  pose proof (Hd (Csem_open FULL_SEM)).
  assert (Hs : strcpy (message q) msg
               = Some (cstr_bytes msg ++ skipn (S (strlen msg)) (message q))).
  { apply strcpy_Some. now rewrite Hlen. }
  assert (E1 : (0 <? cm) = true) by (apply Z.ltb_lt; lia).
  assert (E2 : (0 <? ce) = true) by (apply Z.ltb_lt; lia).
  subst q'. unfold_run H. norm_maps H.
  steps H; now injection H.
Qed.

(** The state a producer run that returns leaves, from the state it
    started in. *)
Lemma producer_effect env args s q cm ce cf tr s1 :
  resources_at s q cm ce cf ->
  cm <= SEM_VALUE_MAX -> cf < SEM_VALUE_MAX ->
  producer_shared_memory env args s = (tr, s1, Ret tt) ->
  exists msg buf,
    arg_message args = Some msg /\
    strcpy (message q) msg = Some buf /\
    0 < ce /\
    resources_at s1 {| message := buf; is_empty := 0 |} cm (ce - 1) (cf + 1) /\
    sock_file s1 = sock_file s /\
    (forall n, n <> MUTEX_SEM -> n <> EMPTY_SEM -> n <> FULL_SEM ->
               sems s1 !! n = sems s !! n).
Proof.
  intros (Hq & Hm & He & Hf) Hcm Hcf H. destruct s as [q' m b].
  cbn [shm sems sock_file] in *. subst q'.
  apply producer_returns in H
    as (msg & buf & Ha & Hs & Hpos & Hce & _ & Hshm & Hb & H1 & H2 & H3 & H4).
  rewrite Hm, He, Hf in *. cbn [from_option id] in *.
  exists msg, buf. unfold resources_at.
  rewrite Hshm, H1, H2, H3. unfold post_count.
  destruct (Z.ltb_spec (cm - 1) SEM_VALUE_MAX); [|lia].
  destruct (Z.ltb_spec cf SEM_VALUE_MAX); [|lia].
  replace (cm - 1 + 1) with cm by lia. auto 10.
Qed.

Lemma last_cons {A} (a : A) l d : List.last (a :: l) d = List.last l a.
Proof.
  revert a d. induction l as [|b l IH]; intros a d; [reflexivity|].
  change (List.last (a :: b :: l) d) with (List.last (b :: l) d).
  rewrite !IH. reflexivity.
Qed.

(** Producers run one after the other on resources that exist, while
    empty slots remain: all return, each moves one unit from empty-slots
    to full-slots, and the mailbox holds the message of the last. *)
Lemma producers_ready env l :
  forall s q ce cf d,
    no_denial env ->
    resources_at s q 1 ce cf ->
    length (message q) = MAX_MESSAGE_LENGTH ->
    read_cstr (message q) = Some (c_str d) ->
    Forall fits l ->
    Z.of_nat (length l) <= ce ->
    0 <= cf -> cf + Z.of_nat (length l) <= SEM_VALUE_MAX ->
    exists tr s1 q1 msg,
      producers env l s = (tr, s1, Ret tt) /\
      resources_at s1 q1 1 (ce - Z.of_nat (length l)) (cf + Z.of_nat (length l)) /\
      length (message q1) = MAX_MESSAGE_LENGTH /\
      last_message l (Some d) = Some msg /\
      read_cstr (message q1) = Some (c_str msg) /\
      sock_file s1 = sock_file s.
Proof.
  induction l as [|a l IH]; intros s q ce cf d Hd Hres Hlen Hread Hfit Hce Hcf Hmax.
  - exists [], s, q, d. cbn [producers ret length last_message map List.last].
    rewrite Z.sub_0_r, Z.add_0_r. auto 10.
  - apply Forall_cons in Hfit as [(msg & Ha & Hm) Hfit].
    cbn [length] in Hce, Hmax |- *. rewrite Nat2Z.inj_succ in *.
    pose proof (producer_ready_returns env a s q msg 1 ce cf Hd Hres Hlen Ha Hm) as Hret.
    destruct (producer_shared_memory env a s) as [[t1 s1] r1] eqn:H1.
    cbn [result_of snd] in Hret. rewrite Hret in H1 by lia.
    destruct (producer_effect env a s q 1 ce cf t1 s1 Hres) as
      (msg' & buf & Ha' & Hs & _ & Hres1 & Hb & _); [unfold SEM_VALUE_MAX; lia | lia | exact H1 |].
    rewrite Ha in Ha'. injection Ha' as <-.
    destruct (IH s1 {| message := buf; is_empty := 0 |} (ce - 1) (cf + 1) msg Hd Hres1)
      as (t2 & s2 & q2 & msg2 & H2 & Hres2 & Hlen2 & Hlast & Hread2 & Hb2);
      [cbn [message]; rewrite (length_strcpy _ _ _ Hs); exact Hlen
      |cbn [message]; exact (read_strcpy _ _ _ Hs)
      |exact Hfit | lia | lia | lia |].
    exists (t1 ++ t2), s2, q2, msg2.
    split; [cbn [producers]; unfold andthen; now rewrite H1, H2|].
    split; [replace (ce - Z.succ (Z.of_nat (length l))) with (ce - 1 - Z.of_nat (length l)) by lia;
            replace (cf + Z.succ (Z.of_nat (length l))) with (cf + 1 + Z.of_nat (length l)) by lia;
            exact Hres2|].
    split; [exact Hlen2|].
    split; [unfold last_message in *; cbn [map]; rewrite last_cons, Ha; exact Hlast|].
    split; [exact Hread2 | congruence].
Qed.

Lemma producer_fresh_effect env args s msg :
  no_denial env ->
  no_resources s ->
  arg_message args = Some msg ->
  (strlen msg < MAX_MESSAGE_LENGTH)%nat ->
  0 < queue_depth args <= SEM_VALUE_MAX ->
  exists tr s1 buf,
    producer_shared_memory env args s = (tr, s1, Ret tt) /\
    resources_at s1 {| message := buf; is_empty := 0 |} 1 (queue_depth args - 1) 1 /\
    length buf = MAX_MESSAGE_LENGTH /\
    read_cstr buf = Some (c_str msg) /\
    sock_file s1 = sock_file s.
Proof.
  intros Hd (Hq & Hm & He & Hf) Ha Hfit Hdepth.
  pose proof (producer_fresh_returns env args s msg Hd Hq Hm He Hf Ha Hfit Hdepth) as Hret.
  destruct (producer_shared_memory env args s) as [[tr s1] r] eqn:H.
  cbn [result_of snd] in Hret. subst r.
  destruct s as [q m b]. cbn [shm sems sock_file] in *. subst q.
  apply producer_returns in H
    as (msg' & buf & Ha' & Hs & _ & _ & _ & Hshm & Hb & H1 & H2 & H3 & _).
  rewrite Ha in Ha'. injection Ha' as <-.
  rewrite Hm, He, Hf in *. cbn [from_option id] in *.
  rewrite (depth_as_unsigned _ Hdepth) in H2.
  exists tr, s1, buf. split; [reflexivity|].
  split; [unfold resources_at; rewrite Hshm, H1, H2, H3; auto|].
  split; [rewrite (length_strcpy _ _ _ Hs); apply repeat_length|].
  split; [exact (read_strcpy _ _ _ Hs) | exact Hb].
Qed.

(** Producers run one after the other from a state without the
    resources, no more of them than the depth the first was given. *)
Lemma producers_fresh env a l s :
  no_denial env ->
  no_resources s ->
  Forall fits (a :: l) ->
  Z.of_nat (length (a :: l)) <= queue_depth a <= SEM_VALUE_MAX ->
  exists tr s1 q1 msg,
    producers env (a :: l) s = (tr, s1, Ret tt) /\
    resources_at s1 q1 1 (queue_depth a - Z.of_nat (length (a :: l)))
      (Z.of_nat (length (a :: l))) /\
    length (message q1) = MAX_MESSAGE_LENGTH /\
    last_message (a :: l) None = Some msg /\
    read_cstr (message q1) = Some (c_str msg) /\
    sock_file s1 = sock_file s.
Proof.
  intros Hd Hfresh Hfit Hdepth.
  apply Forall_cons in Hfit as [(msg & Ha & Hm) Hfit].
  cbn [length] in *. rewrite Nat2Z.inj_succ in *.
  destruct (producer_fresh_effect env a s msg Hd Hfresh Ha Hm)
    as (t1 & s1 & buf & H1 & Hres1 & Hlen1 & Hread1 & Hb1); [lia|].
  destruct (producers_ready env l s1 {| message := buf; is_empty := 0 |}
              (queue_depth a - 1) 1 msg Hd Hres1 Hlen1 Hread1 Hfit)
    as (t2 & s2 & q2 & msg2 & H2 & Hres2 & Hlen2 & Hlast & Hread2 & Hb2); [lia | lia | lia |].
  exists (t1 ++ t2), s2, q2, msg2.
  split; [cbn [producers]; unfold andthen; now rewrite H1, H2|].
  split; [replace (queue_depth a - Z.succ (Z.of_nat (length l)))
            with (queue_depth a - 1 - Z.of_nat (length l)) by lia;
          replace (Z.succ (Z.of_nat (length l))) with (1 + Z.of_nat (length l)) by lia;
          exact Hres2|].
  split; [exact Hlen2|].
  split; [unfold last_message in *; cbn [map]; rewrite last_cons, Ha; exact Hlast|].
  split; [exact Hread2 | congruence].
Qed.

(** X9.  The queue depth given to the first producer is the number of
    producer runs that return before a consumer has run: from a state
    without the resources, as many producers as that depth, run one
    after the other, all return, whatever depth the later ones are
    given, and when their number is the depth the next producer waits. *)
Theorem queue_depth_bounds_producers env a l s :
  no_denial env ->
  no_resources s ->
  Forall fits (a :: l) ->
  Z.of_nat (length (a :: l)) <= queue_depth a <= SEM_VALUE_MAX ->
  result_of (producers env (a :: l) s) = Ret tt /\
  (Z.of_nat (length (a :: l)) = queue_depth a ->
   forall args', result_of (producer_shared_memory env args' (state_of (producers env (a :: l) s)))
                 = Block).
Proof.
  intros Hd Hfresh Hfit Hdepth.
  destruct (producers_fresh env a l s Hd Hfresh Hfit Hdepth)
    as (tr & s1 & q1 & msg & H & Hres & _).
  rewrite H. split; [reflexivity|]. intros Heq args'. cbn [state_of fst snd].
  rewrite Heq, Z.sub_diag in Hres.
  pose proof (blocks_without_units env Producer args' s1 q1 _ _ _ Hd Hres) as Hw.
  cbn [shared_memory_run] in Hw. rewrite Hw by lia. reflexivity.
Qed.

Lemma queue_depth_bounds_producers_witness :
  result_of (producers env_ok [mkargs "one" 2 0; mkargs "two" 5 0] os_fresh) = Ret tt /\
  (Z.of_nat (length [mkargs "one" 2 0; mkargs "two" 5 0]) = queue_depth (mkargs "one" 2 0) ->
   forall args',
     result_of (producer_shared_memory env_ok args'
                  (state_of (producers env_ok [mkargs "one" 2 0; mkargs "two" 5 0] os_fresh)))
     = Block).
Proof.
  apply (queue_depth_bounds_producers env_ok (mkargs "one" 2 0) [mkargs "two" 5 0] os_fresh).
  - exact no_denial_env_ok.
  - repeat split; reflexivity.
  - repeat constructor; eexists; (split; [reflexivity | unfold MAX_MESSAGE_LENGTH; cbn; lia]).
  - cbn. unfold SEM_VALUE_MAX. lia.
Defined.

(** What a consumer finds after the producers. *)
Lemma consumer_after_producers env env' a l args' s :
  no_denial env -> no_denial env' ->
  no_resources s ->
  Forall fits (a :: l) ->
  Z.of_nat (length (a :: l)) <= queue_depth a <= SEM_VALUE_MAX ->
  truthy (enable_echo args') = true ->
  exists msg,
    last_message (a :: l) None = Some msg /\
    let c := consumer_shared_memory env' args' (state_of (producers env (a :: l) s)) in
    result_of c = Ret tt /\
    List.filter is_stdout (trace_of c) = [EvStdout (nl (c_str msg))] /\
    no_resources (state_of c).
Proof.
  intros Hd Hd' Hfresh Hfit Hdepth Hecho.
  destruct (producers_fresh env a l s Hd Hfresh Hfit Hdepth)
    as (tr & s1 & q1 & msg & H & (Hq & Hm & He & Hf) & Hlen & Hlast & Hread & _).
  exists msg. split; [exact Hlast|]. rewrite H. cbn [state_of fst snd]. cbv zeta.
  assert (Hpos : 0 < Z.of_nat (length (a :: l))) by (cbn [length]; lia).
  pose proof (consumer_ready_returns env' args' s1 q1 (c_str msg) 1 _ _
                Hd' Hq Hlen Hread Hm He Hf ltac:(lia) Hpos) as Hret.
  split; [exact Hret|].
  destruct (consumer_shared_memory env' args' s1) as [[tc sc] rc] eqn:Hc.
  cbn [result_of trace_of state_of fst snd] in *. subst rc.
  destruct s1 as [q' m b]. cbn [shm sems] in Hq, Hm, He, Hf.
  apply consumer_returns in Hc
    as (q0 & msg0 & buffer & cm & ce & cf & Hq0 & Hread0 & _ & Hm0 & He0 & Hf0 & _ & _
        & -> & Hshm & _ & H1 & H2 & H3 & _).
  rewrite Hq in Hq0. injection Hq0 as <-.
  rewrite Hread in Hread0. injection Hread0 as <-.
  split; [|repeat split; assumption].
  unfold echo_events, post_event. rewrite Hecho.
  destruct (cm - 1 <? SEM_VALUE_MAX), (ce <? SEM_VALUE_MAX); reflexivity.
Qed.

(** X10.  The mailbox holds one message, whatever the depth: when
    several producers have run before a consumer, each overwrote the
    message of the one before, and the consumer prints the message of
    the last producer only and then removes the segment and the
    semaphores, so that the other messages are never delivered. *)
Theorem consumer_gets_last_message_only env env' a l args' s :
  no_denial env -> no_denial env' ->
  no_resources s ->
  Forall fits (a :: l) ->
  Z.of_nat (length (a :: l)) <= queue_depth a <= SEM_VALUE_MAX ->
  truthy (enable_echo args') = true ->
  exists msg,
    last_message (a :: l) None = Some msg /\
    let c := consumer_shared_memory env' args' (state_of (producers env (a :: l) s)) in
    result_of c = Ret tt /\
    List.filter is_stdout (trace_of c) = [EvStdout (nl (c_str msg))] /\
    no_resources (state_of c).
Proof. apply consumer_after_producers. Qed.

Lemma consumer_gets_last_message_only_witness :
  exists msg,
    last_message [mkargs "one" 2 0; mkargs "two" 5 0] None = Some msg /\
    let c := consumer_shared_memory env_ok (mkargs "unused" 1 1)
               (state_of (producers env_ok [mkargs "one" 2 0; mkargs "two" 5 0] os_fresh)) in
    result_of c = Ret tt /\
    List.filter is_stdout (trace_of c) = [EvStdout (nl (c_str msg))] /\
    no_resources (state_of c).
Proof.
  apply (consumer_gets_last_message_only env_ok env_ok (mkargs "one" 2 0)
           [mkargs "two" 5 0] (mkargs "unused" 1 1) os_fresh).
  - exact no_denial_env_ok.
  - exact no_denial_env_ok.
  - repeat split; reflexivity.
  - repeat constructor; eexists; (split; [reflexivity | unfold MAX_MESSAGE_LENGTH; cbn; lia]).
  - cbn. unfold SEM_VALUE_MAX. lia.
  - reflexivity.
Defined.

(** X11.  A producer run that returns, on semaphores that exist with
    counts in range, has taken one unit from empty-slots, given one to
    full-slots, and left the mutex and every other semaphore at the
    count it found; the queue depth on its command line plays no part. *)
Theorem producer_moves_one_unit env args s q cm ce cf :
  resources_at s q cm ce cf ->
  cm <= SEM_VALUE_MAX -> cf < SEM_VALUE_MAX ->
  result_of (producer_shared_memory env args s) = Ret tt ->
  let s1 := state_of (producer_shared_memory env args s) in
  0 < ce /\
  sems s1 !! MUTEX_SEM = Some cm /\
  sems s1 !! EMPTY_SEM = Some (ce - 1) /\
  sems s1 !! FULL_SEM = Some (cf + 1) /\
  (forall n, n <> MUTEX_SEM -> n <> EMPTY_SEM -> n <> FULL_SEM ->
             sems s1 !! n = sems s !! n).
Proof.
  intros Hres Hcm Hcf Hret s1. subst s1.
  pose proof (run_eta (producer_shared_memory env args s)) as H. rewrite Hret in H.
  destruct (producer_effect env args s q cm ce cf _ _ Hres Hcm Hcf H)
    as (msg & buf & _ & _ & Hce & (_ & H1 & H2 & H3) & _ & H4).
  auto.
Qed.

Lemma producer_moves_one_unit_witness :
  let s1 := state_of (producer_shared_memory env_ok (mkargs "next" 9 0)
                        (set_sems (<[EMPTY_SEM := 3]> (sems os_one_message)) os_one_message)) in
  0 < 3 /\
  sems s1 !! MUTEX_SEM = Some 1 /\
  sems s1 !! EMPTY_SEM = Some (3 - 1) /\
  sems s1 !! FULL_SEM = Some (1 + 1) /\
  (forall n, n <> MUTEX_SEM -> n <> EMPTY_SEM -> n <> FULL_SEM ->
             sems s1 !! n
             = sems (set_sems (<[EMPTY_SEM := 3]> (sems os_one_message)) os_one_message) !! n).
Proof.
  apply (producer_moves_one_unit env_ok (mkargs "next" 9 0)
           (set_sems (<[EMPTY_SEM := 3]> (sems os_one_message)) os_one_message)
           (queue_with "hello") 1 3 1).
  - repeat split; vm_compute; reflexivity.
  - unfold SEM_VALUE_MAX. lia.
  - unfold SEM_VALUE_MAX. lia.
  - vm_compute. reflexivity.
Defined.

(** *** The socket transport *)

Lemma length_list_ascii s : length (list_ascii_of_string s) = String.length s.
Proof. induction s; simpl; congruence. Qed.

Lemma send_bytes m :
  firstn (strlen m) (cstr_bytes m) = list_ascii_of_string (c_str m).
Proof.
  unfold cstr_bytes, strlen. rewrite <- length_list_ascii.
  rewrite firstn_app, Nat.sub_diag, firstn_all. cbn [firstn]. now rewrite app_nil_r.
Qed.

(** What an array holds as a C string when [data] and a NUL were stored
    at its start. *)
Lemma read_cstr_data data rest :
  read_cstr (data ++ NUL :: rest) = Some (c_str (string_of_list_ascii data)).
Proof.
  induction data as [|c data IH]; [reflexivity|].
  cbn [app read_cstr string_of_list_ascii c_str].
  destruct (is_nul c); [reflexivity|]. now rewrite IH.
Qed.

(** The producer's run on a socket that a consumer listens on. *)
Lemma producer_socket_run env args s msg :
  no_denial env ->
  sock_file s = true ->
  arg_message args = Some msg ->
  producer_socket env args s
  = (EvSend (list_ascii_of_string (c_str msg)) :: echo_events args (c_str msg), s, Ret tt).
Proof.
  intros Hd Hb Ha. destruct s as [q m b]. cbn [sock_file] in Hb. subst b.
  pose proof (Hd Csocket). pose proof (Hd Cconnect). pose proof (Hd Csend).
  destruct (producer_socket env args _) as [[tr s1] r] eqn:Hrun.
  unfold_run Hrun. rewrite Ha in Hrun. steps Hrun; injection Hrun as <- <- <-;
    unfold echo_events; rewrite ?E, send_bytes; reflexivity.
Qed.

(** The consumer's run when a peer connects and sends [data], fewer
    bytes than the buffer has. *)
Lemma consumer_socket_run env args s data :
  no_denial env ->
  peer env = Some data ->
  (length data < MAX_MESSAGE_LENGTH)%nat ->
  consumer_socket env args s
  = (EvRecv (length data) :: echo_events args (c_str (string_of_list_ascii data)),
     set_sock_file false s, Ret tt).
Proof.
  intros Hd Hp Hlen. destruct s as [q m b].
  pose proof (Hd Csocket) as D1. pose proof (Hd Cbind) as D2. pose proof (Hd Clisten) as D3.
  pose proof (Hd Caccept) as D4. pose proof (Hd Crecv) as D5.
  assert (Hgot : firstn (length (uninit env MAX_MESSAGE_LENGTH)) data = data).
  { apply firstn_all2. rewrite length_uninit. lia. }
  assert (Hw : write_at 0 (firstn (length (uninit env MAX_MESSAGE_LENGTH)) data)
                 (uninit env MAX_MESSAGE_LENGTH)
               = Some (data ++ skipn (length data) (uninit env MAX_MESSAGE_LENGTH))).
  { rewrite Hgot. unfold write_at. rewrite length_uninit. cbn [Nat.add firstn app].
    destruct (Nat.leb_spec (length data) MAX_MESSAGE_LENGTH); [reflexivity | lia]. }
  assert (Hs : write_at (length (firstn (length (uninit env MAX_MESSAGE_LENGTH)) data)) [NUL]
                 (data ++ skipn (length data) (uninit env MAX_MESSAGE_LENGTH))
               = Some (data ++ NUL :: skipn (length data + 1)
                                        (data ++ skipn (length data)
                                                   (uninit env MAX_MESSAGE_LENGTH)))).
  { rewrite Hgot. unfold write_at. rewrite length_app, length_skipn, length_uninit.
    cbn [length].
    destruct (Nat.leb_spec (length data + 1) (length data + (MAX_MESSAGE_LENGTH - length data)));
      [|lia].
    rewrite firstn_app, Nat.sub_diag, firstn_all. cbn [firstn]. now rewrite app_nil_r. }
  pose proof (read_cstr_data data
                (skipn (length data + 1)
                   (data ++ skipn (length data) (uninit env MAX_MESSAGE_LENGTH)))) as Hr.
  destruct (consumer_socket env args _) as [[tr s1] r] eqn:Hrun.
  unfold_run Hrun. rewrite D2 in Hrun. cbn [orb] in Hrun.
  unfold echo_events. destruct (truthy (enable_echo args)) eqn:Ee.
  all: steps Hrun; injection Hrun as <- <- <-.
  all: replace (length (firstn 1024 data)) with (length data)
         by (rewrite firstn_all2; [reflexivity | unfold MAX_MESSAGE_LENGTH in Hlen; lia]).
  all: rewrite ?c_str_idem; reflexivity.
Qed.

(** X12.  A socket producer started when no consumer has bound the
    socket does not wait for one: it reports the failed call on standard
    error and exits with status 1, having sent nothing and changed
    nothing. *)
Theorem producer_socket_needs_listener env args s :
  sock_file s = false ->
  exists what e, producer_socket env args s = ([EvPerror what e], s, Exit 1).
Proof.
  intros Hb. destruct s as [q m b]. cbn [sock_file] in Hb. subst b.
  destruct (producer_socket env args _) as [[tr s1] r] eqn:Hrun.
  unfold_run Hrun. steps Hrun; injection Hrun as <- <- <-; eauto.
Qed.

Lemma producer_socket_needs_listener_witness :
  exists what e,
    producer_socket env_ok (mkargs "hello" 1 1) os_fresh = ([EvPerror what e], os_fresh, Exit 1).
Proof.
  apply (producer_socket_needs_listener env_ok (mkargs "hello" 1 1) os_fresh).
  reflexivity.
Defined.

(** X13.  With a consumer listening and no call failing, the socket
    producer sends the characters of its message, all of them whatever
    their number and without the terminating NUL, in one [send], prints
    the message when echo is on, returns, and leaves the state as it
    found it. *)
Theorem producer_socket_sends_message env args s msg :
  no_denial env ->
  sock_file s = true ->
  arg_message args = Some msg ->
  producer_socket env args s
  = (EvSend (list_ascii_of_string (c_str msg)) :: echo_events args (c_str msg), s, Ret tt).
Proof. apply producer_socket_run. Qed.

Lemma producer_socket_sends_message_witness :
  producer_socket env_ok (mkargs "hello" 1 1) (set_sock_file true os_fresh)
  = (EvSend (list_ascii_of_string (c_str "hello"))
       :: echo_events (mkargs "hello" 1 1) (c_str "hello"),
     set_sock_file true os_fresh, Ret tt).
Proof.
  apply (producer_socket_sends_message env_ok (mkargs "hello" 1 1)
           (set_sock_file true os_fresh) "hello").
  - exact no_denial_env_ok.
  - reflexivity.
  - reflexivity.
Defined.

(** X14.  When a peer connects and sends fewer bytes than the buffer
    holds, the socket consumer receives them all, terminates them,
    prints them up to their first NUL when echo is on, returns, and
    leaves no socket file; what the uninitialised buffer held plays no
    part. *)
Theorem consumer_socket_receives env args s data :
  no_denial env ->
  peer env = Some data ->
  (length data < MAX_MESSAGE_LENGTH)%nat ->
  consumer_socket env args s
  = (EvRecv (length data) :: echo_events args (c_str (string_of_list_ascii data)),
     set_sock_file false s, Ret tt).
Proof. apply consumer_socket_run. Qed.

Lemma consumer_socket_receives_witness :
  consumer_socket (env_peer "hello") (mkargs "unused" 1 1) os_fresh
  = (EvRecv (length (list_ascii_of_string "hello"))
       :: echo_events (mkargs "unused" 1 1)
            (c_str (string_of_list_ascii (list_ascii_of_string "hello"))),
     set_sock_file false os_fresh, Ret tt).
Proof.
  apply (consumer_socket_receives (env_peer "hello") (mkargs "unused" 1 1) os_fresh
           (list_ascii_of_string "hello")).
  - intros c. reflexivity.
  - reflexivity.
  - unfold MAX_MESSAGE_LENGTH. cbn. lia.
Defined.

(** X15.  The socket round trip: when the consumer's peer delivers what
    a producer sent, and the message is shorter than the buffer, the
    consumer prints the producer's message, as C reads it. *)
Theorem socket_round_trip envp envc pargs cargs sp sc msg :
  no_denial envp -> no_denial envc ->
  sock_file sp = true ->
  arg_message pargs = Some msg ->
  (strlen msg < MAX_MESSAGE_LENGTH)%nat ->
  peer envc = sent (trace_of (producer_socket envp pargs sp)) ->
  truthy (enable_echo cargs) = true ->
  consumer_socket envc cargs sc
  = ([EvRecv (strlen msg); EvStdout (nl (c_str msg))], set_sock_file false sc, Ret tt).
Proof.
  intros Hp Hc Hb Ha Hlen Hpeer Hecho.
  rewrite (producer_socket_run envp pargs sp msg Hp Hb Ha) in Hpeer.
  cbn [trace_of fst sent] in Hpeer.
  rewrite (consumer_socket_run envc cargs sc _ Hc Hpeer)
    by (rewrite length_list_ascii; exact Hlen).
  unfold echo_events. rewrite Hecho.
  rewrite string_of_list_ascii_of_string, c_str_idem, length_list_ascii. reflexivity.
Qed.

Lemma socket_round_trip_witness :
  consumer_socket (env_peer "hello") (mkargs "unused" 1 1) os_fresh
  = ([EvRecv (strlen "hello"); EvStdout (nl (c_str "hello"))],
     set_sock_file false os_fresh, Ret tt).
Proof.
  apply (socket_round_trip env_ok (env_peer "hello") (mkargs "hello" 1 0)
           (mkargs "unused" 1 1) (set_sock_file true os_fresh) os_fresh "hello").
  - exact no_denial_env_ok.
  - intros c. reflexivity.
  - reflexivity.
  - reflexivity.
  - unfold MAX_MESSAGE_LENGTH. cbn. lia.
  - reflexivity.
  - reflexivity.
Defined.

(** X16.  A socket file left behind by an earlier consumer does not
    hinder the next one: the consumer unlinks the path before it binds,
    so that its calls and its end are the same whether or not the file
    existed. *)
Theorem stale_socket_file_is_removed env args s b :
  trace_of (consumer_socket env args (set_sock_file b s))
  = trace_of (consumer_socket env args s) /\
  result_of (consumer_socket env args (set_sock_file b s))
  = result_of (consumer_socket env args s).
Proof.
  unfold consumer_socket, andthen at 1 3 4 6, checked at 1 6, andthen at 1 3, socket.
  destruct s as [q m b0]. cbn [set_sock_file shm sems sock_file].
  destruct (denied env Csocket); [split; reflexivity|].
  cbn [unlink ret set_sock_file shm sems sock_file]. split; reflexivity.
Qed.

(** *** From command line to command line *)

(** The depth of a command line that is not refused is one a semaphore
    can be created with. *)
Lemma accepted_depth opts :
  cli_violation opts = false ->
  0 < queue_depth (args_of opts) <= SEM_VALUE_MAX.
Proof.
  unfold cli_violation. intros H.
  apply orb_false_elim in H as [_ H]. cbn [queue_depth args_of].
  destruct (last_q opts None) as [a|]; [|discriminate].
  apply Z.leb_gt in H. pose proof (to_int_range (strtol a)). unfold atoi in *. lia.
Qed.

(** X17.  Two processes, from a state without the resources: the
    program run as a shared-memory producer with a message that fits the
    buffer, then run as a shared-memory consumer with [-e].  Both return
    0, whatever the other options of the two command lines, the consumer
    prints the producer's message and nothing else, and none of the
    resources is left. *)
Theorem end_to_end_shared_memory env env' argv0 argv0' po co s msg :
  no_denial env -> no_denial env' ->
  no_resources s ->
  cli_violation po = false ->
  selected_transport po = SharedMemory -> selected_role po = Producer ->
  last_m po None = Some msg ->
  (strlen msg < MAX_MESSAGE_LENGTH)%nat ->
  cli_violation co = false ->
  selected_transport co = SharedMemory -> selected_role co = Consumer ->
  existsb is_e co = true ->
  let p := main env argv0 po s in
  let c := main env' argv0' co (state_of p) in
  result_of p = Ret 0 /\
  result_of c = Ret 0 /\
  List.filter is_stdout (trace_of c) = [EvStdout (nl (c_str msg))] /\
  no_resources (state_of c).
Proof.
  intros Hd Hd' Hfresh Hvp Htp Hrp Hmsg Hlen Hvc Htc Hrc Hecho p c. subst p c.
  rewrite (main_cases env), Hvp, Htp, Hrp.
  destruct (andthen_ret_0 (transfer env SharedMemory Producer (args_of po)) s)
    as (_ & -> & ->).
  rewrite (main_cases env'), Hvc, Htc, Hrc.
  match goal with
  | |- context [andthen ?m _ ?s1] =>
      destruct (andthen_ret_0 m s1) as (-> & -> & ->)
  end.
  cbn [transfer].
  assert (Hfit : Forall fits [args_of po]).
  { repeat constructor. exists msg. split; [exact Hmsg | exact Hlen]. }
  assert (Hdepth : Z.of_nat (length [args_of po]) <= queue_depth (args_of po) <= SEM_VALUE_MAX).
  { pose proof (accepted_depth po Hvp). cbn [length]. lia. }
  assert (He : truthy (enable_echo (args_of co)) = true).
  { cbn [enable_echo args_of]. now rewrite Hecho. }
  destruct (producers_fresh env (args_of po) [] s Hd Hfresh Hfit Hdepth)
    as (tr & s1 & q1 & msg1 & Hrun & _).
  destruct (consumer_after_producers env env' (args_of po) [] (args_of co) s
              Hd Hd' Hfresh Hfit Hdepth He)
    as (msg' & Hlast & Hret & Hout & Hgone).
  cbv [last_message map List.last arg_message args_of] in Hlast.
  rewrite Hmsg in Hlast. injection Hlast as <-.
  assert (Hp : producers env [args_of po] s
               = andthen (producer_shared_memory env (args_of po)) (fun _ => ret tt) s)
    by reflexivity.
  assert (Hsame : forall A (m : M A) s0,
             state_of (andthen m (fun _ => ret tt) s0) = state_of (m s0) /\
             result_of (andthen m (fun _ => ret tt) s0)
             = match result_of (m s0) with
               | Ret _ => Ret tt | Exit x => Exit x | Block => Block | Fault => Fault
               end).
  { intros A m s0. unfold andthen. destruct (m s0) as [[t s2] [x| | |]]; cbn; auto. }
  destruct (Hsame _ (producer_shared_memory env (args_of po)) s) as [Hst Hres].
  rewrite Hp, Hst in Hret, Hout, Hgone. rewrite Hp in Hrun.
  rewrite Hrun in Hres. cbn [result_of snd] in Hres.
  destruct (result_of (producer_shared_memory env (args_of po) s)); try discriminate.
  split; [reflexivity|]. rewrite Hret. auto.
Qed.

Lemma end_to_end_shared_memory_witness :
  let p := main env_ok "prog" [Opt_p; Opt_s; Opt_m "hello"; Opt_q "1"] os_fresh in
  let c := main env_ok "prog" [Opt_c; Opt_s; Opt_m "unused"; Opt_q "1"; Opt_e] (state_of p) in
  result_of p = Ret 0 /\
  result_of c = Ret 0 /\
  List.filter is_stdout (trace_of c) = [EvStdout (nl (c_str "hello"))] /\
  no_resources (state_of c).
Proof.
  apply (end_to_end_shared_memory env_ok env_ok "prog" "prog"
           [Opt_p; Opt_s; Opt_m "hello"; Opt_q "1"]
           [Opt_c; Opt_s; Opt_m "unused"; Opt_q "1"; Opt_e] os_fresh "hello").
  - exact no_denial_env_ok.
  - exact no_denial_env_ok.
  - repeat split; reflexivity.
  - vm_compute. reflexivity.
  - reflexivity.
  - reflexivity.
  - reflexivity.
  - unfold MAX_MESSAGE_LENGTH. cbn. lia.
  - vm_compute. reflexivity.
  - reflexivity.
  - reflexivity.
  - reflexivity.
Defined.

(** X18.  A consumer has no use for the message and the queue depth
    its command line must give: two accepted consumer command lines
    with the same transport and the same echo setting make the same
    run, whatever their [-m] and [-q]. *)
Theorem consumer_ignores_message_and_depth env argv0 argv0' co co' s :
  cli_violation co = false -> cli_violation co' = false ->
  selected_role co = Consumer -> selected_role co' = Consumer ->
  selected_transport co = selected_transport co' ->
  existsb is_e co = existsb is_e co' ->
  main env argv0 co s = main env argv0' co' s.
Proof.
  intros Hv Hv' Hr Hr' Ht He.
  rewrite !main_cases, Hv, Hv', Hr, Hr', <- Ht.
  destruct (selected_transport co); cbn [transfer];
    unfold consumer_socket, consumer_shared_memory, consumer_transfer;
    cbn [enable_echo args_of]; rewrite He; reflexivity.
Qed.

Lemma consumer_ignores_message_and_depth_witness :
  main env_ok "prog" [Opt_c; Opt_s; Opt_m "one"; Opt_q "1"] os_one_message
  = main env_ok "prog" [Opt_q "700"; Opt_m "another"; Opt_s; Opt_c] os_one_message.
Proof.
  apply (consumer_ignores_message_and_depth env_ok "prog" "prog"
           [Opt_c; Opt_s; Opt_m "one"; Opt_q "1"]
           [Opt_q "700"; Opt_m "another"; Opt_s; Opt_c] os_one_message).
  - vm_compute. reflexivity.
  - vm_compute. reflexivity.
  - reflexivity.
  - reflexivity.
  - reflexivity.
  - reflexivity.
Defined.
